(** * BLiP unique users: a shallow embedding of [app.py]

    The development follows the core of [app.py]: the utilities
    ([business_bucket], [safe_json], [extract_identity]), the paginated
    collector ([fetch_events]) and the processing pipeline
    ([preprocess_and_unique], [summarize]).

    Python values are the inductive type [pyval]; a call that may raise
    returns a [result].  The library functions whose behaviour the source
    does not fix ([json.loads], [pd.to_datetime], [ZoneInfo],
    [sort_values], the calendar accessors) are the fields of a [runtime]
    the definitions take as a parameter, so a theorem holds for whatever
    those functions do, under the contract it names.  The file has the
    embedding first, then the vocabulary of the statements, then the
    properties. *)

From Stdlib Require Import ZArith List String Ascii Bool Lia.
From Stdlib Require Import QArith Qabs Qpower Lqa Permutation Sorted DecimalString.
Import ListNotations.

Local Open Scope string_scope.
Local Open Scope Z_scope.

(* ===================================================================== *)
(** ** Python values, exceptions and the builtins the source calls       *)
(* ===================================================================== *)

Module Py.

(** The exception classes that occur; all of them derive from
    [Exception], so [except Exception] catches each one. *)
Inductive exn : Type :=
| TypeError
| ValueError
| AttributeError
| RuntimeError
| OverflowError
| HTTPError (status : Z)
| RequestException
| ZoneInfoNotFoundError.

Inductive result (A : Type) : Type :=
| Ok (a : A)
| Raise (e : exn).

Arguments Ok {A} a.
Arguments Raise {A} e.

Definition bind {A B : Type} (m : result A) (k : A -> result B) : result B :=
  match m with
  | Ok a => k a
  | Raise e => Raise e
  end.

Definition is_ok {A : Type} (m : result A) : bool :=
  match m with Ok _ => true | Raise _ => false end.

(** [f] applied to each element in turn; the first exception ends it. *)
Fixpoint mapM {A B : Type} (f : A -> result B) (l : list A) : result (list B) :=
  match l with
  | [] => Ok []
  | x :: r =>
      match f x with
      | Raise e => Raise e
      | Ok y =>
          match mapM f r with
          | Raise e => Raise e
          | Ok ys => Ok (y :: ys)
          end
      end
  end.

(** The values a decoded JSON document or a DataFrame cell can hold.
    [PyNaN] is the float [nan] pandas puts where a cell is missing; other
    non-integer numbers are outside the modelled universe.  A [PyDict]
    keeps its items in insertion order, as a Python [dict] does; a string
    is a sequence of code points below 256. *)
#[warnings="-register-all"]
Inductive pyval : Type :=
| PyNone
| PyBool (b : bool)
| PyInt (z : Z)
| PyNaN
| PyStr (s : string)
| PyList (l : list pyval)
| PyDict (d : list (string * pyval)).

(** [d.get(k)] with no default: [None] stands for the absent key. *)
Fixpoint dict_get (d : list (string * pyval)) (k : string) : option pyval :=
  match d with
  | [] => None
  | (k', v) :: r => if String.eqb k' k then Some v else dict_get r k
  end.

(** [d[k] = v]: an existing key keeps its place, a new one goes last. *)
Fixpoint dict_set (d : list (string * pyval)) (k : string) (v : pyval)
  : list (string * pyval) :=
  match d with
  | [] => [(k, v)]
  | (k', v') :: r =>
      if String.eqb k' k then (k', v) :: r else (k', v') :: dict_set r k v
  end.

(** Truth value of an object ([x or y], [not x]). [nan] is true. *)
Definition truthy (v : pyval) : bool :=
  match v with
  | PyNone => false
  | PyBool b => b
  | PyInt z => negb (z =? 0)
  | PyNaN => true
  | PyStr s => negb (String.eqb s "")
  | PyList l => match l with [] => false | _ => true end
  | PyDict d => match d with [] => false | _ => true end
  end.

(** [pd.isna] on a scalar cell. *)
Definition isna (v : pyval) : bool :=
  match v with
  | PyNone | PyNaN => true
  | _ => false
  end.

(** *** Characters *)

Definition code (c : ascii) : Z := Z.of_nat (nat_of_ascii c).

(** [str.isspace] on one code point below 256; [str.strip] and the
    regular expression class [\s] use it. *)
Definition isspace (c : ascii) : bool :=
  let n := code c in
  ((9 <=? n) && (n <=? 13)) || ((28 <=? n) && (n <=? 32))
  || (n =? 133) || (n =? 160).

Definition isdigit (c : ascii) : bool :=
  let n := code c in (48 <=? n) && (n <=? 57).

Fixpoint lstrip (l : list ascii) : list ascii :=
  match l with
  | c :: r => if isspace c then lstrip r else l
  | [] => []
  end.

Definition rstrip (l : list ascii) : list ascii := rev (lstrip (rev l)).

(** [s.strip()] *)
Definition strip (s : string) : string :=
  string_of_list_ascii (rstrip (lstrip (list_ascii_of_string s))).

(** [s.replace(a, b)] for one-character [a] and [b]. *)
Definition replace_char (a b : ascii) (s : string) : string :=
  string_of_list_ascii
    (map (fun c => if Ascii.eqb c a then b else c) (list_ascii_of_string s)).

(** *** [int(x)] *)

(** The digits of a decimal literal: single underscores may separate
    digits; [prev] tells whether the previous character was a digit. *)
Fixpoint digits_value (acc : Z) (prev : bool) (l : list ascii) : option Z :=
  match l with
  | [] => if prev then Some acc else None
  | c :: r =>
      if isdigit c then digits_value (10 * acc + (code c - 48)) true r
      else if Ascii.eqb c "_"%char then
             if prev then digits_value acc false r else None
      else None
  end.

(** The white space [int] skips at the two ends of a string: the
    [isspace] of the C locale on an ASCII character (the separators 28
    to 31 are not in it), and the two spaces from 128 to 255, which the
    conversion of the string to ASCII turns into a blank. *)
Definition int_space (c : ascii) : bool :=
  let n := code c in
  ((9 <=? n) && (n <=? 13)) || (n =? 32) || (n =? 133) || (n =? 160).

Fixpoint skip_spaces (l : list ascii) : list ascii :=
  match l with
  | c :: r => if int_space c then skip_spaces r else l
  | [] => []
  end.

(** [sys.get_int_max_str_digits()]: a literal of more digits is
    refused. *)
Definition int_max_str_digits : Z := 4300.

Definition int_of_str (s : string) : result Z :=
  let body := rev (skip_spaces (rev (skip_spaces (list_ascii_of_string s)))) in
  let signed :=
    match body with
    | "-"%char :: r => option_map Z.opp (digits_value 0 false r)
    | "+"%char :: r => digits_value 0 false r
    | _ => digits_value 0 false body
    end in
  match signed with
  | Some z =>
      if Z.of_nat (List.length (filter isdigit body)) >? int_max_str_digits
      then Raise ValueError
      else Ok z
  | None => Raise ValueError
  end.

Definition int (v : pyval) : result Z :=
  match v with
  | PyNone => Raise TypeError
  | PyBool b => Ok (if b then 1 else 0)
  | PyInt z => Ok z
  | PyNaN => Raise ValueError
  | PyStr s => int_of_str s
  | PyList _ => Raise TypeError
  | PyDict _ => Raise TypeError
  end.

(** *** [str(x)] and [repr(x)] *)

Definition hex_digit (n : Z) : ascii :=
  ascii_of_nat (Z.to_nat (if n <? 10 then 48 + n else 87 + n)).

Definition printable (c : ascii) : bool :=
  let n := code c in
  negb ((n <? 32) || (n =? 127) || ((128 <=? n) && (n <=? 160)) || (n =? 173)).

Definition repr_char (quote c : ascii) : list ascii :=
  if Ascii.eqb c quote || Ascii.eqb c "\"%char then ["\"%char; c]
  else if code c =? 9 then ["\"%char; "t"%char]
  else if code c =? 10 then ["\"%char; "n"%char]
  else if code c =? 13 then ["\"%char; "r"%char]
  else if printable c then [c]
  else ["\"%char; "x"%char; hex_digit (code c / 16); hex_digit (code c mod 16)].

Definition dquote : ascii := ascii_of_nat 34.
Definition squote : ascii := "'"%char.

(** [repr] of a [str]: single quotes, unless the text holds a single
    quote and no double quote. *)
Definition repr_str (s : string) : string :=
  let l := list_ascii_of_string s in
  let quote :=
    if existsb (Ascii.eqb squote) l && negb (existsb (Ascii.eqb dquote) l)
    then dquote else squote in
  string_of_list_ascii (quote :: flat_map (repr_char quote) l ++ [quote]).

Definition repr_int (z : Z) : string := NilZero.string_of_int (Z.to_int z).

Fixpoint repr (v : pyval) : string :=
  match v with
  | PyNone => "None"
  | PyBool b => if b then "True" else "False"
  | PyInt z => repr_int z
  | PyNaN => "nan"
  | PyStr s => repr_str s
  | PyList l =>
      "[" ++ (fix items (l : list pyval) : string :=
                match l with
                | [] => ""
                | x :: r =>
                    repr x ++ match r with [] => "" | _ => ", " ++ items r end
                end) l ++ "]"
  | PyDict d =>
      "{" ++ (fix items (d : list (string * pyval)) : string :=
                match d with
                | [] => ""
                | (k, x) :: r =>
                    repr_str k ++ ": " ++ repr x
                    ++ match r with [] => "" | _ => ", " ++ items r end
                end) d ++ "}"
  end.

Definition str (v : pyval) : string :=
  match v with
  | PyStr s => s
  | _ => repr v
  end.

End Py.

Import Py.

Notation "x <- m ;; k" := (Py.bind m (fun x => k))
  (at level 61, m at next level, right associativity).

(* ===================================================================== *)
(** ** Business-hour classification                                       *)
(* ===================================================================== *)

Module Bucket.

(** The two labels [business_bucket] returns. *)
Inductive bucket : Type := Dentro | Fora.

Definition bucket_name (b : bucket) : string :=
  match b with Dentro => "Dentro" | Fora => "Fora" end.

Definition bucket_eqb (a b : bucket) : bool :=
  match a, b with
  | Dentro, Dentro | Fora, Fora => true
  | _, _ => false
  end.

(** [business_bucket(hour, start_h, end_h)]; the [try] around [int(hour)]
    turns every exception into ["Fora"]. *)
Definition business_bucket (hour : pyval) (start_h end_h : Z) : result bucket :=
  match Py.int hour with
  | Raise _ => Ok Fora
  | Ok h =>
      if start_h <=? end_h then
        Ok (if (start_h <=? h) && (h <? end_h) then Dentro else Fora)
      else
        Ok (if (h >=? start_h) || (h <? end_h) then Dentro else Fora)
  end.

End Bucket.

Import Bucket.

(* ===================================================================== *)
(** ** The library functions the source calls                            *)
(* ===================================================================== *)

Module Lib.

(** A timezone-aware [pd.Timestamp]: the instant, in nanoseconds since
    the epoch, and the UTC offset in force at that instant.  Ordering and
    equality of timestamps look at the instant only. *)
Record Timestamp : Type := {
  instant : Z;
  utcoffset : Z
}.

(** A [ZoneInfo]: the UTC offset, in nanoseconds, at each instant. *)
Definition zone : Type := Z -> Z.

(** What the source takes from [json], [pandas] and [zoneinfo].
    - [json_loads s] is [json.loads(s)];
    - [to_datetime col] is [pd.to_datetime(col, errors="coerce",
      utc=True)] on a column: one instant per cell, [None] for [NaT];
    - [ZoneInfo name] looks a zone up;
    - [sort_values key rows] is [df.sort_values(col)] with the default
      [kind="quicksort"], [key] reading the sort column of a row;
    - [isocalendar] and [day_name] are the [.dt] accessors. *)
Record runtime : Type := {
  json_loads : string -> result pyval;
  to_datetime : list pyval -> list (option Z);
  ZoneInfo : string -> result zone;
  sort_values : forall A : Type, (A -> Z) -> list A -> list A;
  isocalendar : Timestamp -> Z * Z;
  day_name : Timestamp -> string
}.

Arguments sort_values r {A} key rows.

End Lib.

Import Lib.

(* ===================================================================== *)
(** ** Identity extraction                                                *)
(* ===================================================================== *)

Module Identity.

(** *** The pattern of [extract_identity]

    A quote, the word Identity, a quote, blanks, a colon, blanks, a
    quote, one or more characters that are not quotes (the group), and a
    quote; a quote is either the single or the double one. *)

Definition is_quote (c : ascii) : bool :=
  Ascii.eqb c dquote || Ascii.eqb c squote.

(** [expect p l]: what follows the literal [p] at the head of [l]. *)
Fixpoint expect (p l : list ascii) : option (list ascii) :=
  match p with
  | [] => Some l
  | c :: p' =>
      match l with
      | c' :: l' => if Ascii.eqb c c' then expect p' l' else None
      | [] => None
      end
  end.

(** The longest prefix without a quote, and what follows it. *)
Fixpoint span_value (l : list ascii) : list ascii * list ascii :=
  match l with
  | c :: r =>
      if is_quote c then ([], l)
      else let (v, rest) := span_value r in (c :: v, rest)
  | [] => ([], [])
  end.

(** The pattern matched at the head of [l]: the captured group.  Every
    repetition is followed by a character outside its class, so the
    greedy match is the only one. *)
Definition match_at (l : list ascii) : option (list ascii) :=
  match l with
  | q1 :: r1 =>
      if is_quote q1 then
        match expect (list_ascii_of_string "Identity") r1 with
        | Some (q2 :: r2) =>
            if is_quote q2 then
              match lstrip r2 with
              | c :: r3 =>
                  if Ascii.eqb c ":"%char then
                    match lstrip r3 with
                    | q3 :: r4 =>
                        if is_quote q3 then
                          match span_value r4 with
                          | (x :: v, _ :: _) => Some (x :: v)
                          | _ => None
                          end
                        else None
                    | [] => None
                    end
                  else None
              | [] => None
              end
            else None
        | _ => None
        end
      else None
  | [] => None
  end.

(** [re.search(pattern, text)]: the leftmost match. *)
Fixpoint search (l : list ascii) : option (list ascii) :=
  match match_at l with
  | Some v => Some v
  | None =>
      match l with
      | _ :: r => search r
      | [] => None
      end
  end.

Definition re_search_identity (text : string) : option string :=
  option_map string_of_list_ascii (search (list_ascii_of_string text)).

(** *** [safe_json] and [extract_identity] *)

Section WithRuntime.

Variable rt : runtime.

(** [safe_json(obj)].  Both [except Exception] clauses catch whatever
    [json.loads] raises; what [json.loads] returns is handed back as it
    is, mapping or not. *)
Definition safe_json (obj : pyval) : pyval :=
  match obj with
  | PyDict _ => obj
  | PyStr o =>
      let s := strip o in
      match json_loads rt s with
      | Ok v => v
      | Raise _ =>
          match json_loads rt (replace_char squote dquote s) with
          | Ok v => v
          | Raise _ => PyDict []
          end
      end
  | _ => PyDict []
  end.

(** [d.get(k)]: only a mapping has the method. *)
Definition py_get (d : pyval) (k : string) : result pyval :=
  match d with
  | PyDict kv =>
      Ok (match dict_get kv k with Some v => v | None => PyNone end)
  | _ => Raise AttributeError
  end.

Definition extract_identity (contact_field : pyval) : result (option string) :=
  let d := safe_json contact_field in
  v1 <- py_get d "identity" ;;
  match v1 with
  | PyStr s => Ok (Some s)
  | _ =>
      v2 <- py_get d "Identity" ;;
      match v2 with
      | PyStr s => Ok (Some s)
      | _ => Ok (re_search_identity (Py.str contact_field))
      end
  end.

End WithRuntime.

End Identity.

Import Identity.

(* ===================================================================== *)
(** ** The paginated collector                                            *)
(* ===================================================================== *)

Module Fetch.

(** The numeric parameters of [fetch_events]; [base_sleep] is a float in
    the source and an exact rational here (scaling by a power of two is
    exact in binary floating point). *)
Record config : Type := {
  take : Z;
  max_events : Z;
  max_retries : Z;
  base_sleep : Q
}.

(** The defaults of the signature. *)
Definition default_config : config :=
  {| take := 500; max_events := 10000; max_retries := 5; base_sleep := 8 # 10 |}.

(** What [requests.post] gives back: an exception (timeout, connection
    error), or a response with its status code and what [resp.json()]
    does with the body. *)
Inductive response : Type :=
| NoResponse
| Reply (status_code : Z) (json : result pyval).

(** The remote end: the answer to the [n]-th request of the run, which
    carries [$skip = skip]. *)
Definition server : Type := nat -> Z -> response.

(** The loop variables together with what the run has done so far: the
    delays slept (oldest first) and the number of requests sent. *)
Record state : Type := {
  collected : list pyval;
  skip : Z;
  attempt : Z;
  sleeps : list Q;
  requests : nat
}.

Definition initial : state :=
  {| collected := []; skip := 0; attempt := 0; sleeps := []; requests := 0 |}.

(** [resp.raise_for_status()] *)
Definition raise_for_status (status : Z) : result unit :=
  if (400 <=? status) && (status <? 600) then Raise (HTTPError status)
  else Ok tt.

Definition transient (status : Z) : bool :=
  (status =? 429) || (status =? 500) || (status =? 502)
  || (status =? 503) || (status =? 504).

(** The integer operand of a product with a float becomes a float, which
    has no room for [2^1024]. *)
Definition float_of_int (z : Z) : result unit :=
  if Z.abs z <? 2 ^ 1024 then Ok tt else Raise OverflowError.

(** [time.sleep(d)] refuses a delay whose nanoseconds do not fit a signed
    64-bit integer, and a negative one. *)
Definition time_sleep (d : Q) : result unit :=
  if Qle_bool (inject_Z (2 ^ 63)) (Qabs d * inject_Z (10 ^ 9)) then Raise OverflowError
  else if Qle_bool 0 d then Ok tt
  else Raise ValueError.

(** [d.get(k, default)] *)
Definition get_or (d : pyval) (k : string) (default : pyval) : result pyval :=
  match d with
  | PyDict kv =>
      Ok (match dict_get kv k with Some v => v | None => default end)
  | _ => Raise AttributeError
  end.

(** [(data or {}).get("resource", {}).get("items", []) or []] *)
Definition page_items (data : pyval) : result pyval :=
  r <- get_or (if truthy data then data else PyDict []) "resource" (PyDict []) ;;
  i <- get_or r "items" (PyList []) ;;
  Ok (if truthy i then i else PyList []).

(** The elements [collected.extend(items)] appends: those of a list, the
    characters of a string, the keys of a mapping. *)
Definition iterate (items : pyval) : result (list pyval) :=
  match items with
  | PyList l => Ok l
  | PyStr s => Ok (map (fun c => PyStr (String c EmptyString)) (list_ascii_of_string s))
  | PyDict d => Ok (map (fun kv => PyStr (fst kv)) d)
  | _ => Raise TypeError
  end.

(** [sleep_s = base_sleep * (2 ** attempt)] and [time.sleep(sleep_s)]:
    the delay slept. *)
Definition backoff_sleep (cfg : config) (att : Z) : result Q :=
  _ <- float_of_int (2 ^ att) ;;
  let sleep_s := (base_sleep cfg * inject_Z (2 ^ att))%Q in
  _ <- time_sleep sleep_s ;;
  Ok sleep_s.

(** Where the body of the [try] leaves the iteration. *)
Inductive attempt_result : Type :=
| Retry (slept : Q)
| Data (data : pyval).

(** The [try] block of one iteration. *)
Definition try_request (cfg : config) (reply : response) (att : Z)
  : result attempt_result :=
  match reply with
  | NoResponse => Raise RequestException
  | Reply status json =>
      if status =? 401 then Raise RuntimeError
      else if transient status then
        if att <? max_retries cfg then
          sleep_s <- backoff_sleep cfg att ;;
          Ok (Retry sleep_s)
        else
          _ <- raise_for_status status ;;
          _ <- raise_for_status status ;;
          data <- json ;;
          Ok (Data data)
      else
        _ <- raise_for_status status ;;
        data <- json ;;
        Ok (Data data)
  end.

(** How one iteration of [while True] ends. *)
Inductive step_result : Type :=
| Continue (st : state)
| Break (st : state)
| Propagate (e : exn) (st : state).

Definition step (cfg : config) (srv : server) (st : state) : step_result :=
  let sent :=
    {| collected := collected st; skip := skip st; attempt := attempt st;
       sleeps := sleeps st; requests := S (requests st) |} in
  match try_request cfg (srv (requests st) (skip st)) (attempt st) with
  | Raise _ => Break sent
  | Ok (Retry slept) =>
      Continue {| collected := collected st; skip := skip st;
                  attempt := attempt st + 1;
                  sleeps := (sleeps st ++ [slept])%list;
                  requests := S (requests st) |}
  | Ok (Data data) =>
      match (items <- page_items data ;; iterate items) with
      | Raise e => Propagate e sent
      | Ok items =>
          let all := (collected st ++ items)%list in
          let grown :=
            {| collected := all; skip := skip st; attempt := attempt st;
               sleeps := sleeps st; requests := S (requests st) |} in
          if match items with [] => true | _ => false end
             || (Z.of_nat (List.length all) >=? max_events cfg)
          then Break grown
          else Continue {| collected := all; skip := skip st + take cfg;
                           attempt := attempt st; sleeps := sleeps st;
                           requests := S (requests st) |}
      end
  end.

(** How a call ends: [return collected], or an exception that leaves
    [fetch_events]. *)
Inductive outcome : Type :=
| Returned (st : state)
| Raised (e : exn) (st : state).

(** [while True], unrolled at most [fuel] times; [None] when the fuel
    runs out before the loop ends. *)
Fixpoint loop (fuel : nat) (cfg : config) (srv : server) (st : state)
  : option outcome :=
  match fuel with
  | O => None
  | S fuel' =>
      match step cfg srv st with
      | Continue st' => loop fuel' cfg srv st'
      | Break st' => Some (Returned st')
      | Propagate e st' => Some (Raised e st')
      end
  end.

(** Iterations that always suffice (see [FetchFacts.loop_ends]). *)
Definition enough_fuel (cfg : config) : nat :=
  S (Z.to_nat (max_retries cfg) + Z.to_nat (max_events cfg)).

Definition fetch_events (cfg : config) (srv : server) : option outcome :=
  loop (enough_fuel cfg) cfg srv initial.

(** The list a finished call hands to its caller, if it returns. *)
Definition returned_list (o : outcome) : option (list pyval) :=
  match o with
  | Returned st => Some (collected st)
  | Raised _ _ => None
  end.

Definition final_state (o : outcome) : state :=
  match o with
  | Returned st => st
  | Raised _ st => st
  end.

End Fetch.

(* ===================================================================== *)
(** ** Normalisation and first contact                                    *)
(* ===================================================================== *)

Module Frame.

(** A raw event: the mapping the API returned. *)
Definition event : Type := list (string * pyval).

(** A row of the normalised table: the raw record and the columns
    [preprocess_and_unique] adds. *)
Record row : Type := {
  raw : event;
  datetime_utc : Timestamp;
  datetime_local : Timestamp;
  hora : Z;
  user_id : pyval;
  horario_comercial : bucket
}.

(** Rows with their index labels. *)
Definition frame : Type := list (nat * row).

(** A [DataFrame] the program returns: the frame [pd.DataFrame(raw)]
    when it is empty, which then has no column and is known by its
    number of rows; or the frame with the added columns (the raw column
    names are kept beside). *)
Inductive dataframe : Type :=
| NoColumns (n_rows : nat)
| Normalized (raw_columns : list string) (rows : frame).

(** *** [pd.DataFrame(raw)] *)

Definition has_key (e : event) (c : string) : bool :=
  match dict_get e c with Some _ => true | None => false end.

(** [c in df.columns] *)
Definition has_column (records : list event) (c : string) : bool :=
  existsb (fun e => has_key e c) records.

(** The cell of column [c]: a record without the key shows [nan]. *)
Definition cell (e : event) (c : string) : pyval :=
  match dict_get e c with Some v => v | None => PyNaN end.

Definition column (records : list event) (c : string) : list pyval :=
  map (fun e => cell e c) records.

(** The column names, in order of first appearance. *)
Fixpoint add_names (names : list string) (e : event) : list string :=
  match e with
  | [] => names
  | (k, _) :: r =>
      add_names (if existsb (String.eqb k) names then names
                 else (names ++ [k])%list) r
  end.

Definition column_names (records : list event) : list string :=
  fold_left add_names records [].

(** [df.empty] for [pd.DataFrame(raw)]: no row, or no column. *)
Definition records_empty (records : list event) : bool :=
  forallb (fun e => match e with [] => true | _ => false end) records.

(** [df.empty]: no row, or no column. *)
Definition empty (df : dataframe) : bool :=
  match df with
  | NoColumns _ => true
  | Normalized _ rows => match rows with [] => true | _ => false end
  end.

(** [len(df)] *)
Definition len (df : dataframe) : Z :=
  match df with
  | NoColumns n => Z.of_nat n
  | Normalized _ rows => Z.of_nat (List.length rows)
  end.

(** *** Timestamps *)

Definition ns_per_hour : Z := 3600 * 10 ^ 9.

Definition utc_timestamp (t : Z) : Timestamp :=
  {| instant := t; utcoffset := 0 |}.

(** [to_local(ts, tz)]; [None] is [NaT].  The timestamps come from
    [to_datetime] with [utc=True], so they carry a zone and the branch
    for naive ones is not taken. *)
Definition to_local (ts : option Timestamp) (tz : zone) : option Timestamp :=
  match ts with
  | None => None
  | Some t => Some {| instant := instant t; utcoffset := tz (instant t) |}
  end.

(** [.dt.hour] *)
Definition hour (t : Timestamp) : Z :=
  ((instant t + utcoffset t) / ns_per_hour) mod 24.

Definition is_NaT (t : option Z) : bool :=
  match t with None => true | Some _ => false end.

(** *** First contact *)

(** The sort column [datetime_local]. *)
Definition sort_key (x : nat * row) : Z := instant (datetime_local (snd x)).

(** [dropna(subset=["user_id"])] *)
Definition dropna_user_id (f : frame) : frame :=
  filter (fun x => negb (isna (user_id (snd x)))) f.

Definition hashable (v : pyval) : bool :=
  match v with
  | PyList _ | PyDict _ => false
  | _ => true
  end.

(** Equality of two hashable cells as the duplicate test sees it:
    [True == 1], and a missing value equals a missing value. *)
Definition key_eqb (a b : pyval) : bool :=
  match a, b with
  | PyStr s, PyStr t => String.eqb s t
  | PyInt x, PyInt y => x =? y
  | PyBool x, PyBool y => Bool.eqb x y
  | PyBool x, PyInt y | PyInt y, PyBool x => y =? (if x then 1 else 0)
  | PyNone, PyNone | PyNaN, PyNaN => true
  | _, _ => false
  end.

(** The rows whose key is not among [seen] nor on an earlier row. *)
Fixpoint keep_first (seen : list pyval) (f : frame) : frame :=
  match f with
  | [] => []
  | x :: r =>
      if existsb (key_eqb (user_id (snd x))) seen then keep_first seen r
      else x :: keep_first (user_id (snd x) :: seen) r
  end.

(** [drop_duplicates(subset=["user_id"], keep="first")]: the keys are
    hashed, so a list or a mapping among them is a [TypeError]. *)
Definition drop_duplicates (f : frame) : result frame :=
  if forallb (fun x => hashable (user_id (snd x))) f then Ok (keep_first [] f)
  else Raise TypeError.

(** [reset_index(drop=True)] *)
Definition reset_index (f : frame) : frame :=
  combine (seq 0 (List.length f)) (map snd f).

Section WithRuntime.

Variable rt : runtime.

(** The chain of [df_unicos] before [reset_index]: the rows still carry
    the labels they have in [df]. *)
Definition first_contact_labelled (f : frame) : result frame :=
  drop_duplicates (dropna_user_id (sort_values rt sort_key f)).

(** [sort_values / dropna / drop_duplicates / reset_index] *)
Definition first_contact (f : frame) : result frame :=
  kept <- first_contact_labelled f ;;
  Ok (reset_index kept).

(** *** The added columns *)

(** Column [datetime_utc] before [dropna]: [storageDate] parsed, and
    [eventDate] parsed in its place when every cell came out [NaT] and the
    column [eventDate] exists.  A frame with neither column gets a column
    of [None]; [object_dtype] tells that case, in which [.dt] is
    refused. *)
Definition storage_parsed (records : list event) : list (option Z) :=
  if has_column records "storageDate"
  then to_datetime rt (column records "storageDate")
  else map (fun _ => None) records.

Definition datetime_utc_column (records : list event) : list (option Z) :=
  if forallb is_NaT (storage_parsed records) && has_column records "eventDate"
  then to_datetime rt (column records "eventDate")
  else storage_parsed records.

Definition object_dtype (records : list event) : bool :=
  negb (has_column records "storageDate")
  && negb (has_column records "eventDate").

(** [dropna(subset=["datetime_utc"])]: the records that keep their label
    and instant. *)
Fixpoint dropna_datetime (i : nat) (records : list event) (ts : list (option Z))
  : list (nat * (event * Z)) :=
  match records, ts with
  | e :: r, Some t :: ts' => (i, (e, t)) :: dropna_datetime (S i) r ts'
  | _ :: r, None :: ts' => dropna_datetime (S i) r ts'
  | _, _ => []
  end.

(** Column [user_id]: the identity of [contact], and the column [from]
    in its place when no row got an identity and [from] exists. *)
Definition identity_cell (e : event) : result pyval :=
  id <- extract_identity rt (cell e "contact") ;;
  Ok (match id with Some s => PyStr s | None => PyNone end).

Definition user_id_column (records : list event) (kept : list event)
  : result (list pyval) :=
  ids <- (if has_column records "contact" then mapM identity_cell kept
          else Ok (map (fun _ => PyNone) kept)) ;;
  if forallb isna ids && has_column records "from"
  then Ok (map (fun e => cell e "from") kept)
  else Ok ids.

(** The columns [datetime_local], [hora] and [horario_comercial] of one
    row.  The rows that are left have an instant, so [to_local] does not
    return [NaT]. *)
Definition make_row (tz : zone) (start_h end_h : Z)
  (x : nat * (event * Z)) (uid : pyval) : result (nat * row) :=
  let '(i, (e, t)) := x in
  match to_local (Some (utc_timestamp t)) tz with
  | None => Raise ValueError
  | Some loc =>
      b <- business_bucket (PyInt (hour loc)) start_h end_h ;;
      Ok (i, {| raw := e; datetime_utc := utc_timestamp t;
                datetime_local := loc; hora := hour loc; user_id := uid;
                horario_comercial := b |})
  end.

(** The table [df] after the columns are added. *)
Definition normalize (records : list event) (tz : zone) (start_h end_h : Z)
  : result frame :=
  let kept := dropna_datetime 0 records (datetime_utc_column records) in
  if object_dtype records then Raise AttributeError
  else
    uids <- user_id_column records (map (fun x => fst (snd x)) kept) ;;
    mapM (fun xu => make_row tz start_h end_h (fst xu) (snd xu))
         (combine kept uids).

Definition preprocess_and_unique (records : list event) (tz_name : string)
  (start_h end_h : Z) : result (dataframe * dataframe) :=
  if records_empty records
  then Ok (NoColumns (List.length records), NoColumns (List.length records))
  else
    tz <- ZoneInfo rt tz_name ;;
    df <- normalize records tz start_h end_h ;;
    df_unicos <- first_contact df ;;
    Ok (Normalized (column_names records) df,
        Normalized (column_names records) df_unicos).

End WithRuntime.

End Frame.

Import Frame.

(* ===================================================================== *)
(** ** Summaries                                                          *)
(* ===================================================================== *)

Module Summary.

(** A row of the table [resumo]: label, users, percentage. *)
Record resumo_row : Type := {
  horario : bucket;
  usuarios_unicos : Z;
  percentual : Q
}.

(** A pivot table as [size().unstack(fill_value=0)] leaves it: the
    column labels, and each index label with its counts. *)
Record pivot (K : Type) : Type := {
  pivot_columns : list bucket;
  pivot_rows : list (K * list Z)
}.

Arguments pivot_columns {K} p.
Arguments pivot_rows {K} p.

(** [pd.DataFrame()] *)
Definition empty_pivot {K : Type} : pivot K :=
  {| pivot_columns := []; pivot_rows := [] |}.

Inductive weekday : Type :=
| Segunda | Terca | Quarta | Quinta | Sexta | Sabado | Domingo.

(** The dictionary the function returns. *)
Record summary : Type := {
  total : Z;
  resumo : list resumo_row;
  semana : pivot string;
  dia : pivot weekday;
  hora_table : pivot Z
}.

Definition ordem : list bucket := [Dentro; Fora].

Definition dias_ord : list weekday :=
  [Segunda; Terca; Quarta; Quinta; Sexta; Sabado; Domingo].

(** The labels of [dias_ord]; the two accented letters are the code
    points 231 and 225. *)
Definition weekday_name (d : weekday) : string :=
  match d with
  | Segunda => "Segunda-feira"
  | Terca => "Ter" ++ String (ascii_of_nat 231) "a-feira"
  | Quarta => "Quarta-feira"
  | Quinta => "Quinta-feira"
  | Sexta => "Sexta-feira"
  | Sabado => "S" ++ String (ascii_of_nat 225) "bado"
  | Domingo => "Domingo"
  end.

Definition weekday_eqb (a b : weekday) : bool :=
  String.eqb (weekday_name a) (weekday_name b).

(** [dias_map]: a name outside the dictionary maps to a missing value. *)
Definition dias_map (english : string) : option weekday :=
  if String.eqb english "Monday" then Some Segunda
  else if String.eqb english "Tuesday" then Some Terca
  else if String.eqb english "Wednesday" then Some Quarta
  else if String.eqb english "Thursday" then Some Quinta
  else if String.eqb english "Friday" then Some Sexta
  else if String.eqb english "Saturday" then Some Sabado
  else if String.eqb english "Sunday" then Some Domingo
  else None.

(** [pd.Categorical(values, categories=dias_ord)] on one cell. *)
Definition categorical (v : pyval) : option weekday :=
  match v with
  | PyStr s => find (fun d => String.eqb (weekday_name d) s) dias_ord
  | _ => None
  end.

(** *** Percentages *)

(** The column is of dtype [float64].  A float is the rational number
    it denotes, and every operation rounds its exact result to the
    nearest binary64 number; the infinities and the NaN are left out,
    which no operation on counts below [2^63] produces. *)

(** Nearest integer, ties to the even one ([rint] of numpy). *)
Definition round_half_even (q : Q) : Z :=
  let n := Qnum q in
  let d := Z.pos (Qden q) in
  let f := n / d in
  match Z.compare (2 * (n mod d)) d with
  | Lt => f
  | Gt => f + 1
  | Eq => if Z.even f then f else f + 1
  end.

(** The integer [L] with [2^L <= |q| < 2^(L+1)], for [q] other than 0. *)
Definition ilog2 (q : Q) : Z :=
  let k := Z.log2 (Z.abs (Qnum q)) - Z.log2 (Z.pos (Qden q)) in
  if Qle_bool ((2 # 1) ^ k) (Qabs q) then k else k - 1.

(** The binary64 number nearest to [q], ties to the even significand:
    53 bits of significand, exponents from [-1074] up. *)
Definition binary64 (q : Q) : Q :=
  if Qnum q =? 0 then 0%Q
  else
    let e := Z.max (ilog2 q - 52) (- 1074) in
    (inject_Z (round_half_even (q * (2 # 1) ^ (- e))) * (2 # 1) ^ e)%Q.

(** Multiplication and division of [float64]. *)
Definition fmul (a b : Q) : Q := binary64 (a * b).
Definition fdiv (a b : Q) : Q := binary64 (a / b).

(** [np.rint] *)
Definition rint (x : Q) : Q := inject_Z (round_half_even x).

(** [.round(2)]: numpy multiplies by [10.0 ** 2], rounds to the nearest
    integer and divides by [10.0 ** 2]. *)
Definition round2 (x : Q) : Q := fdiv (rint (fmul x 100)) 100.

(** [(count / total * 100).round(2)] on one count: the [int64] count
    and the integer [total] become floats, then each operation
    rounds. *)
Definition percent (n total : Z) : Q :=
  round2 (fmul (fdiv (binary64 (inject_Z n)) (binary64 (inject_Z total))) 100).

(** *** Counting *)

Definition count_where (p : nat * row -> bool) (f : frame) : Z :=
  Z.of_nat (List.length (filter p f)).

Definition in_bucket (b : bucket) (x : nat * row) : bool :=
  bucket_eqb (horario_comercial (snd x)) b.

(** [value_counts().reindex(ordem, fill_value=0)] with the percentage
    column. *)
Definition resumo_of (f : frame) (total : Z) : list resumo_row :=
  map (fun b =>
         let n := count_where (in_bucket b) f in
         {| horario := b; usuarios_unicos := n;
            percentual := percent n total |})
      ordem.

(** The bucket labels that occur: the columns [unstack] makes. *)
Definition observed_buckets (f : frame) : list bucket :=
  filter (fun b => existsb (in_bucket b) f) ordem.

(** [groupby([key, "horario_comercial"]).size().unstack(fill_value=0)]
    over the index labels [index]. *)
Definition size_unstack {K : Type} (key_is : K -> nat * row -> bool)
  (index : list K) (f : frame) : list (K * list Z) :=
  map (fun k =>
         (k, map (fun b => count_where (fun x => key_is k x && in_bucket b x) f)
                 (observed_buckets f)))
      index.

(** The distinct labels in increasing order ([sort_index]). *)
Fixpoint insert_label {K : Type} (ltb : K -> K -> bool) (k : K) (l : list K)
  : list K :=
  match l with
  | [] => [k]
  | h :: r =>
      if ltb k h then k :: l
      else if ltb h k then h :: insert_label ltb k r
      else l
  end.

Definition sorted_labels {K : Type} (ltb : K -> K -> bool) (l : list K) : list K :=
  fold_right (insert_label ltb) [] l.

Definition pair_ltb (a b : Z * Z) : bool :=
  (fst a <? fst b) || ((fst a =? fst b) && (snd a <? snd b)).

Definition pair_eqb (a b : Z * Z) : bool :=
  (fst a =? fst b) && (snd a =? snd b).

(** The label of a week: the year, [-W], and the week on two digits. *)
Definition week_label (yw : Z * Z) : string :=
  let w := snd yw in
  repr_int (fst yw) ++ "-W"
  ++ (if (0 <=? w) && (w <? 10) then "0" else "") ++ repr_int w.

Section WithRuntime.

Variable rt : runtime.

Definition semana_of (f : frame) : pivot string :=
  let key x := isocalendar rt (datetime_local (snd x)) in
  {| pivot_columns := observed_buckets f;
     pivot_rows :=
       map (fun kr => (week_label (fst kr), snd kr))
           (size_unstack (fun k x => pair_eqb (key x) k)
                         (sorted_labels pair_ltb (map key f)) f) |}.

(** Column [dia_semana]: the raw column of that name when the frame has
    one, else the translated day name. *)
Definition dia_semana (raw_columns : list string) (x : nat * row) : option weekday :=
  if existsb (String.eqb "dia_semana") raw_columns
  then categorical (cell (raw (snd x)) "dia_semana")
  else dias_map (day_name rt (datetime_local (snd x))).

Definition dia_of (raw_columns : list string) (f : frame) : pivot weekday :=
  {| pivot_columns := observed_buckets f;
     pivot_rows :=
       size_unstack
         (fun d x => match dia_semana raw_columns x with
                     | Some d' => weekday_eqb d' d
                     | None => false
                     end)
         dias_ord f |}.

Definition hora_of (f : frame) : pivot Z :=
  {| pivot_columns := observed_buckets f;
     pivot_rows :=
       size_unstack (fun h x => hora (snd x) =? h)
                    (sorted_labels Z.ltb (map (fun x => hora (snd x)) f)) f |}.

Definition empty_summary : summary :=
  {| total := 0; resumo := []; semana := empty_pivot; dia := empty_pivot;
     hora_table := empty_pivot |}.

(** The rows and the raw column names of a frame that is not empty. *)
Definition rows_of (df : dataframe) : frame :=
  match df with
  | NoColumns _ => []
  | Normalized _ f => f
  end.

Definition raw_columns_of (df : dataframe) : list string :=
  match df with
  | NoColumns _ => []
  | Normalized raw_columns _ => raw_columns
  end.

(** [summarize(df_unicos)] *)
Definition summarize (df_unicos : dataframe) : result summary :=
  if empty df_unicos then Ok empty_summary
  else
    let total := len df_unicos in
    let f := rows_of df_unicos in
    Ok {| total := total;
          resumo := resumo_of f total;
          semana := semana_of f;
          dia := dia_of (raw_columns_of df_unicos) f;
          hora_table := hora_of f |}.

End WithRuntime.

End Summary.

(* ===================================================================== *)
(** ** Reference instances of the library functions                       *)
(* ===================================================================== *)

(** Executable stand-ins on which the properties are run.  Each covers a
    fragment of what the real function accepts: the JSON reader knows
    objects, arrays, strings with the one-letter escapes, integers and
    the literals; the timestamp reader knows the layout
    [YYYY-MM-DDTHH:MM:SSZ]; the zone table has [UTC] and
    [America/Sao_Paulo] at the offset of minus three hours it has had
    since 2019.  For [sort_values] there are the sort the source asks
    for, the default quicksort of numpy, transcribed from its routine,
    and a stable sort. *)
Module Reference.

(** *** A JSON reader *)

Definition json_space (c : ascii) : bool :=
  let n := code c in (n =? 32) || (n =? 9) || (n =? 10) || (n =? 13).

Fixpoint skip_ws (l : list ascii) : list ascii :=
  match l with
  | c :: r => if json_space c then skip_ws r else l
  | [] => []
  end.

Definition unescape (c : ascii) : option ascii :=
  if Ascii.eqb c dquote then Some dquote
  else if Ascii.eqb c "\"%char then Some "\"%char
  else if Ascii.eqb c "/"%char then Some "/"%char
  else if Ascii.eqb c "b"%char then Some (ascii_of_nat 8)
  else if Ascii.eqb c "f"%char then Some (ascii_of_nat 12)
  else if Ascii.eqb c "n"%char then Some (ascii_of_nat 10)
  else if Ascii.eqb c "r"%char then Some (ascii_of_nat 13)
  else if Ascii.eqb c "t"%char then Some (ascii_of_nat 9)
  else None.

(** The text after an opening double quote, up to the closing one. *)
Fixpoint read_string (acc l : list ascii) : option (string * list ascii) :=
  match l with
  | [] => None
  | c :: r =>
      if Ascii.eqb c dquote then Some (string_of_list_ascii (rev acc), r)
      else if Ascii.eqb c "\"%char then
        match r with
        | e :: r' =>
            match unescape e with
            | Some x => read_string (x :: acc) r'
            | None => None
            end
        | [] => None
        end
      else if code c <? 32 then None
      else read_string (c :: acc) r
  end.

Fixpoint span_digits (l : list ascii) : list ascii * list ascii :=
  match l with
  | c :: r =>
      if isdigit c then let (d, rest) := span_digits r in (c :: d, rest)
      else ([], l)
  | [] => ([], [])
  end.

Definition digits_to_Z (l : list ascii) : Z :=
  fold_left (fun acc c => 10 * acc + (code c - 48)) l 0.

(** An integer literal: [0], or a digit from 1 to 9 and more digits;
    a fraction or an exponent after it is outside the fragment. *)
Definition read_natural (l : list ascii) : option (Z * list ascii) :=
  match l with
  | c :: r =>
      if Ascii.eqb c "0"%char then Some (0, r)
      else if isdigit c then
        let (d, rest) := span_digits r in Some (digits_to_Z (c :: d), rest)
      else None
  | [] => None
  end.

Definition no_fraction (l : list ascii) : bool :=
  match l with
  | c :: _ =>
      negb (Ascii.eqb c "."%char || Ascii.eqb c "e"%char || Ascii.eqb c "E"%char)
  | [] => true
  end.

Definition read_int (l : list ascii) : option (pyval * list ascii) :=
  let signed :=
    match l with
    | c :: r =>
        if Ascii.eqb c "-"%char
        then option_map (fun zr => (- fst zr, snd zr)) (read_natural r)
        else read_natural l
    | [] => None
    end in
  match signed with
  | Some (z, rest) => if no_fraction rest then Some (PyInt z, rest) else None
  | None => None
  end.

Definition read_word (w : string) (v : pyval) (l : list ascii)
  : option (pyval * list ascii) :=
  option_map (fun rest => (v, rest)) (expect (list_ascii_of_string w) l).

(** A value at the head of [l]; [read_members] and [read_elements] start
    after the opening bracket and the blanks that follow it. *)
Fixpoint read_value (fuel : nat) (l : list ascii) {struct fuel}
  : option (pyval * list ascii) :=
  match fuel with
  | O => None
  | S f =>
      match l with
      | [] => None
      | c :: r =>
          if Ascii.eqb c dquote then
            option_map (fun sr => (PyStr (fst sr), snd sr)) (read_string [] r)
          else if Ascii.eqb c "{"%char then
            match skip_ws r with
            | c' :: r' =>
                if Ascii.eqb c' "}"%char then Some (PyDict [], r')
                else read_members f [] (c' :: r')
            | [] => None
            end
          else if Ascii.eqb c "["%char then
            match skip_ws r with
            | c' :: r' =>
                if Ascii.eqb c' "]"%char then Some (PyList [], r')
                else read_elements f [] (c' :: r')
            | [] => None
            end
          else if Ascii.eqb c "n"%char then read_word "null" PyNone l
          else if Ascii.eqb c "t"%char then read_word "true" (PyBool true) l
          else if Ascii.eqb c "f"%char then read_word "false" (PyBool false) l
          else if Ascii.eqb c "N"%char then read_word "NaN" PyNaN l
          else read_int l
      end
  end
with read_members (fuel : nat) (acc : list (string * pyval)) (l : list ascii)
  {struct fuel} : option (pyval * list ascii) :=
  match fuel with
  | O => None
  | S f =>
      match l with
      | q :: r =>
          if Ascii.eqb q dquote then
            match read_string [] r with
            | Some (k, r1) =>
                match skip_ws r1 with
                | c :: r2 =>
                    if Ascii.eqb c ":"%char then
                      match read_value f (skip_ws r2) with
                      | Some (v, r3) =>
                          match skip_ws r3 with
                          | c' :: r4 =>
                              if Ascii.eqb c' "}"%char
                              then Some (PyDict (dict_set acc k v), r4)
                              else if Ascii.eqb c' ","%char
                              then read_members f (dict_set acc k v) (skip_ws r4)
                              else None
                          | [] => None
                          end
                      | None => None
                      end
                    else None
                | [] => None
                end
            | None => None
            end
          else None
      | [] => None
      end
  end
with read_elements (fuel : nat) (acc : list pyval) (l : list ascii)
  {struct fuel} : option (pyval * list ascii) :=
  match fuel with
  | O => None
  | S f =>
      match read_value f l with
      | Some (v, r1) =>
          match skip_ws r1 with
          | c :: r2 =>
              if Ascii.eqb c "]"%char then Some (PyList (acc ++ [v])%list, r2)
              else if Ascii.eqb c ","%char
              then read_elements f (acc ++ [v])%list (skip_ws r2)
              else None
          | [] => None
          end
      | None => None
      end
  end.

Definition json_loads (s : string) : result pyval :=
  let l := list_ascii_of_string s in
  match read_value (S (List.length l)) (skip_ws l) with
  | Some (v, rest) =>
      match skip_ws rest with
      | [] => Ok v
      | _ => Raise ValueError
      end
  | None => Raise ValueError
  end.

(** *** Timestamps in the layout [YYYY-MM-DDTHH:MM:SSZ] *)

(** Days from 1970-01-01 to the given civil date. *)
Definition days_from_civil (y m d : Z) : Z :=
  let y' := if m <=? 2 then y - 1 else y in
  let era := y' / 400 in
  let yoe := y' - era * 400 in
  let mp := (m + 9) mod 12 in
  let doy := (153 * mp + 2) / 5 + d - 1 in
  let doe := yoe * 365 + yoe / 4 - yoe / 100 + doy in
  era * 146097 + doe - 719468.

(** The civil date (year, month, day) of a day count. *)
Definition civil_from_days (z : Z) : Z * Z * Z :=
  let z' := z + 719468 in
  let era := z' / 146097 in
  let doe := z' - era * 146097 in
  let yoe := (doe - doe / 1460 + doe / 36524 - doe / 146096) / 365 in
  let doy := doe - (365 * yoe + yoe / 4 - yoe / 100) in
  let mp := (5 * doy + 2) / 153 in
  let d := doy - (153 * mp + 2) / 5 + 1 in
  let m := if mp <? 10 then mp + 3 else mp - 9 in
  ((yoe + era * 400 + (if m <=? 2 then 1 else 0)), m, d).

Definition ns_per_second : Z := 10 ^ 9.
Definition ns_per_day : Z := 86400 * ns_per_second.

(** The number a run of digits of the given width spells. *)
Definition field (width : nat) (l : list ascii) : option (Z * list ascii) :=
  let d := firstn width l in
  if (List.length d =? width)%nat && forallb isdigit d
  then Some (digits_to_Z d, skipn width l)
  else None.

Definition sep (c : string) (l : list ascii) : option (list ascii) :=
  expect (list_ascii_of_string c) l.

Definition parse_iso (s : string) : option Z :=
  match field 4 (list_ascii_of_string s) with
  | Some (y, l1) =>
  match sep "-" l1 with Some l2 =>
  match field 2 l2 with Some (m, l3) =>
  match sep "-" l3 with Some l4 =>
  match field 2 l4 with Some (d, l5) =>
  match sep "T" l5 with Some l6 =>
  match field 2 l6 with Some (hh, l7) =>
  match sep ":" l7 with Some l8 =>
  match field 2 l8 with Some (mm, l9) =>
  match sep ":" l9 with Some l10 =>
  match field 2 l10 with Some (ss, l11) =>
  match sep "Z" l11 with Some [] =>
    let '(y', m', d') := civil_from_days (days_from_civil y m d) in
    if (y' =? y) && (m' =? m) && (d' =? d) && (1 <=? y)
       && (hh <? 24) && (mm <? 60) && (ss <? 60)
    then Some (days_from_civil y m d * ns_per_day
               + (hh * 3600 + mm * 60 + ss) * ns_per_second)
    else None
  | _ => None end | None => None end | None => None end | None => None end
  | None => None end | None => None end | None => None end | None => None end
  | None => None end | None => None end | None => None end | None => None end.

Definition to_datetime (col : list pyval) : list (option Z) :=
  map (fun v => match v with PyStr s => parse_iso s | _ => None end) col.

(** *** Zones *)

Definition ZoneInfo (name : string) : result zone :=
  if String.eqb name "UTC" then Ok (fun _ => 0)
  else if String.eqb name "America/Sao_Paulo" then Ok (fun _ => - 3 * ns_per_hour)
  else Raise ZoneInfoNotFoundError.

(** *** The calendar accessors *)

Definition local_day (t : Timestamp) : Z := (instant t + utcoffset t) / ns_per_day.

(** Monday is 0. *)
Definition weekday_index (t : Timestamp) : Z := (local_day t + 3) mod 7.

Definition isocalendar (t : Timestamp) : Z * Z :=
  let thursday := local_day t - weekday_index t + 3 in
  let '(y, _, _) := civil_from_days thursday in
  (y, (thursday - days_from_civil y 1 1) / 7 + 1).

Definition day_name (t : Timestamp) : string :=
  nth (Z.to_nat (weekday_index t))
      ["Monday"; "Tuesday"; "Wednesday"; "Thursday"; "Friday"; "Saturday"; "Sunday"]
      "".

(** *** Sorting *)

(** [x] put into a sorted list, before the first element it does not
    exceed. *)
Fixpoint insert_by {A : Type} (key : A -> Z) (x : A) (l : list A) : list A :=
  match l with
  | [] => [x]
  | y :: r =>
      if key x <=? key y then x :: l else y :: insert_by key x r
  end.

(** Insertion sort, which keeps rows of equal key in their given
    order; what [sort_values(kind="stable")] returns. *)
Definition stable_sort {A : Type} (key : A -> Z) (l : list A) : list A :=
  fold_right (insert_by key) [] l.

(** What [sort_values] does by default, [kind="quicksort"]: pandas
    sorts the positions [0 .. n-1] of the rows by the column with
    [ndarray.argsort], which for a column of instants is the routine
    [aquicksort_] of numpy, and takes the rows in that order.  The
    routine works on the array [tosort] of positions, here a list;
    every loop has as fuel the length of the array, which bounds its
    passes (the outer loop one more: a range for each partition, and
    the first). *)
Module NumpySort.


(** A range whose last entry is at most this far from its first is left
    to the insertion sort. *)
Definition SMALL_QUICKSORT : Z := 16.

Section Argsort.

(** The sort column, by row position. *)
Variable v : list Z.

(** [tosort[p]], [v[tosort[p]]] and the assignment [tosort[p] = x]. *)
Definition entry (tosort : list nat) (p : Z) : nat :=
  nth (Z.to_nat p) tosort 0%nat.

Definition value (tosort : list nat) (p : Z) : Z :=
  nth (entry tosort p) v 0.

Definition assign (tosort : list nat) (p : Z) (x : nat) : list nat :=
  if (0 <=? p) && (p <? Z.of_nat (List.length tosort))
  then (firstn (Z.to_nat p) tosort ++ x :: skipn (S (Z.to_nat p)) tosort)%list
  else tosort.

Definition INTP_SWAP (tosort : list nat) (p q : Z) : list nat :=
  assign (assign tosort p (entry tosort q)) q (entry tosort p).

(** [do ++pi; while (v[*pi] < vp)] and [do --pj; while (vp < v[*pj])] *)
Fixpoint scan_up (fuel : nat) (tosort : list nat) (vp pi : Z) : Z :=
  match fuel with
  | O => pi + 1
  | S f =>
      if value tosort (pi + 1) <? vp then scan_up f tosort vp (pi + 1)
      else pi + 1
  end.

Fixpoint scan_down (fuel : nat) (tosort : list nat) (vp pj : Z) : Z :=
  match fuel with
  | O => pj - 1
  | S f =>
      if vp <? value tosort (pj - 1) then scan_down f tosort vp (pj - 1)
      else pj - 1
  end.

(** The [for (;;)] of the partition: the entries swapped, and where
    [pi] stops. *)
Fixpoint sweep (fuel : nat) (tosort : list nat) (vp pi pj : Z)
  : list nat * Z :=
  match fuel with
  | O => (tosort, pi)
  | S f =>
      let pi' := scan_up (List.length tosort) tosort vp pi in
      let pj' := scan_down (List.length tosort) tosort vp pj in
      if pi' >=? pj' then (tosort, pi')
      else sweep f (INTP_SWAP tosort pi' pj') vp pi' pj'
  end.

(** One partition of the entries from [pl] to [pr]: median of three,
    the pivot parked at [pr - 1], the sweep, the pivot put in place. *)
Definition partition (tosort : list nat) (pl pr : Z) : list nat * Z :=
  let pm := pl + (pr - pl) / 2 in
  let t1 := if value tosort pm <? value tosort pl
            then INTP_SWAP tosort pm pl else tosort in
  let t2 := if value t1 pr <? value t1 pm then INTP_SWAP t1 pr pm else t1 in
  let t3 := if value t2 pm <? value t2 pl then INTP_SWAP t2 pm pl else t2 in
  let vp := value t3 pm in
  let t4 := INTP_SWAP t3 pm (pr - 1) in
  let '(t5, pi) := sweep (List.length tosort) t4 vp pl (pr - 1) in
  (INTP_SWAP t5 pi (pr - 1), pi).

(** The inner [while] of the insertion sort: the entries above [vi]'s
    place move up by one. *)
Fixpoint shift_up (fuel : nat) (tosort : list nat) (vp pl pj : Z)
  : list nat * Z :=
  match fuel with
  | O => (tosort, pj)
  | S f =>
      if (pj >? pl) && (vp <? value tosort (pj - 1))
      then shift_up f (assign tosort pj (entry tosort (pj - 1))) vp pl (pj - 1)
      else (tosort, pj)
  end.

Fixpoint insertion (fuel : nat) (tosort : list nat) (pl pr pi : Z) : list nat :=
  match fuel with
  | O => tosort
  | S f =>
      if pi <=? pr then
        let vi := entry tosort pi in
        let '(t, pj) := shift_up (List.length tosort) tosort (nth vi v 0) pl pi in
        insertion f (assign t pj vi) pl pr (pi + 1)
      else tosort
  end.

(** [aheapsort_] on the [n] entries from [pl]; [a[i]] is
    [tosort[pl - 1 + i]]. *)
Fixpoint sift (fuel : nat) (tosort : list nat) (pl n : Z) (tmp : nat) (i j : Z)
  : list nat * Z :=
  match fuel with
  | O => (tosort, i)
  | S f =>
      if j <=? n then
        let j' := if (j <? n) && (value tosort (pl - 1 + j)
                                  <? value tosort (pl - 1 + j + 1))
                  then j + 1 else j in
        if nth tmp v 0 <? value tosort (pl - 1 + j')
        then sift f (assign tosort (pl - 1 + i) (entry tosort (pl - 1 + j')))
                  pl n tmp j' (j' + j')
        else (tosort, i)
      else (tosort, i)
  end.

Fixpoint heapify (fuel : nat) (tosort : list nat) (pl n l : Z) : list nat :=
  match fuel with
  | O => tosort
  | S f =>
      if l >? 0 then
        let tmp := entry tosort (pl - 1 + l) in
        let '(t, i) := sift (List.length tosort) tosort pl n tmp l (2 * l) in
        heapify f (assign t (pl - 1 + i) tmp) pl n (l - 1)
      else tosort
  end.

Fixpoint unheap (fuel : nat) (tosort : list nat) (pl n : Z) : list nat :=
  match fuel with
  | O => tosort
  | S f =>
      if n >? 1 then
        let tmp := entry tosort (pl - 1 + n) in
        let t0 := assign tosort (pl - 1 + n) (entry tosort (pl - 1 + 1)) in
        let '(t, i) := sift (List.length tosort) t0 pl (n - 1) tmp 1 2 in
        unheap f (assign t (pl - 1 + i) tmp) pl (n - 1)
      else tosort
  end.

Definition aheapsort (tosort : list nat) (pl n : Z) : list nat :=
  unheap (List.length tosort)
         (heapify (List.length tosort) tosort pl n (n / 2)) pl n.

(** The inner [while] of [aquicksort_]: partitions while the range is
    long, the longer part pushed with the depth left. *)
Fixpoint partitions (fuel : nat) (tosort : list nat) (pl pr : Z)
  (stack : list (Z * Z * Z)) (cdepth : Z)
  : list nat * Z * Z * list (Z * Z * Z) :=
  match fuel with
  | O => (tosort, pl, pr, stack)
  | S f =>
      if pr - pl >? SMALL_QUICKSORT then
        let '(t, pi) := partition tosort pl pr in
        if pi - pl <? pr - pi
        then partitions f t pl (pi - 1) ((pi + 1, pr, cdepth - 1) :: stack)
                        (cdepth - 1)
        else partitions f t (pi + 1) pr ((pl, pi - 1, cdepth - 1) :: stack)
                        (cdepth - 1)
      else (tosort, pl, pr, stack)
  end.

(** The outer [while (1)]: a range whose depth is spent goes to the
    heap sort; any other is partitioned down and insertion-sorted; then
    the next range is popped. *)
Fixpoint ranges (fuel : nat) (tosort : list nat) (pl pr : Z)
  (stack : list (Z * Z * Z)) (cdepth : Z) : list nat :=
  match fuel with
  | O => tosort
  | S f =>
      let '(t, stack') :=
        if cdepth <? 0 then (aheapsort tosort pl (pr - pl + 1), stack)
        else
          let '(t1, pl1, pr1, stack1) :=
            partitions (List.length tosort) tosort pl pr stack cdepth in
          (insertion (List.length tosort) t1 pl1 pr1 (pl1 + 1), stack1) in
      match stack' with
      | [] => t
      | (pl', pr', cdepth') :: rest => ranges f t pl' pr' rest cdepth'
      end
  end.

(** [npy_get_msb(num) * 2] *)
Definition depth_limit (num : Z) : Z := 2 * Z.log2 num.

(** [v.argsort(kind="quicksort")] *)
Definition aquicksort : list nat :=
  let num := List.length v in
  ranges (S num) (seq 0 num) 0 (Z.of_nat num - 1) [] (depth_limit (Z.of_nat num)).

End Argsort.

(** [df.sort_values(col)]: the rows taken in the order of the indexer. *)
Definition sort_values {A : Type} (key : A -> Z) (rows : list A) : list A :=
  flat_map (fun i => match nth_error rows i with Some x => [x] | None => [] end)
           (aquicksort (map key rows)).

End NumpySort.

(** *** Two runtimes: they differ in the [kind] of [sort_values]. *)

Definition stable : runtime :=
  {| Lib.json_loads := json_loads;
     Lib.to_datetime := to_datetime;
     Lib.ZoneInfo := ZoneInfo;
     Lib.sort_values := @stable_sort;
     Lib.isocalendar := isocalendar;
     Lib.day_name := day_name |}.

Definition quicksort : runtime :=
  {| Lib.json_loads := json_loads;
     Lib.to_datetime := to_datetime;
     Lib.ZoneInfo := ZoneInfo;
     Lib.sort_values := @NumpySort.sort_values;
     Lib.isocalendar := isocalendar;
     Lib.day_name := day_name |}.

End Reference.


(* ===================================================================== *)
(** ** Vocabulary of the statements                                       *)
(* ===================================================================== *)

Module IdentitySpec.

(** The pattern of [extract_identity] read as a description of text: [l]
    starts with a quote, the word Identity, a quote, blanks, a colon,
    blanks, a quote, the non-empty quote-free text [v], and a quote. *)
Definition occurs_at_head (l v : list ascii) : Prop :=
  exists q1 q2 q3 q4 ws1 ws2 post,
    l = (q1 :: list_ascii_of_string "Identity" ++ q2 :: ws1
            ++ ":"%char :: ws2 ++ q3 :: v ++ q4 :: post)%list
    /\ is_quote q1 = true /\ is_quote q2 = true
    /\ is_quote q3 = true /\ is_quote q4 = true
    /\ Forall (fun c => isspace c = true) ws1
    /\ Forall (fun c => isspace c = true) ws2
    /\ v <> [] /\ Forall (fun c => is_quote c = false) v.

(** The first string value under the key [identity], then under the key
    [Identity]: the two spellings the source looks up. *)
Definition lookup_two (kv : list (string * pyval)) : option string :=
  match dict_get kv "identity" with
  | Some (PyStr s) => Some s
  | _ =>
      match dict_get kv "Identity" with
      | Some (PyStr s) => Some s
      | _ => None
      end
  end.

Definition lower_char (c : ascii) : ascii :=
  let n := code c in
  if (65 <=? n) && (n <=? 90) then ascii_of_nat (Z.to_nat (n + 32)) else c.

Definition lower (s : string) : string :=
  string_of_list_ascii (map lower_char (list_ascii_of_string s)).

(** The lookup the claim words describe: the string value of a key that
    reads [identity] once letter case is ignored. *)
Fixpoint lookup_caseless (kv : list (string * pyval)) : option string :=
  match kv with
  | [] => None
  | (k, v) :: r =>
      match v with
      | PyStr s => if String.eqb (lower k) "identity" then Some s
                   else lookup_caseless r
      | _ => lookup_caseless r
      end
  end.

(** A text written with single quotes, read with double quotes. *)
Definition dq (s : string) : string := replace_char squote dquote s.

End IdentitySpec.

Import IdentitySpec.

Module FetchSpec.

Import Fetch.

(** The response body the API sends for a page of items. *)
Definition envelope (items : list pyval) : pyval :=
  PyDict [("resource", PyDict [("items", PyList items)])].

(** A server that answers every request with status 200 and the page
    its offset selects. *)
Definition page_server (pages : Z -> list pyval) : server :=
  fun _ skip => Reply 200 (Ok (envelope (pages skip))).

(** The state after [n] iterations that all went on. *)
Fixpoint after (n : nat) (cfg : config) (srv : server) (st : state)
  : option state :=
  match n with
  | O => Some st
  | S k =>
      match step cfg srv st with
      | Continue st' => after k cfg srv st'
      | _ => None
      end
  end.

(** The delays of the first [n] retries: [base_sleep * 2^k] for [k]
    from 0. *)
Definition backoff (cfg : config) (n : nat) : list Q :=
  map (fun k => (base_sleep cfg * inject_Z (2 ^ Z.of_nat k))%Q) (seq 0 n).

(** What bounds the loop: retries left, plus items still missing. *)
Definition budget (cfg : config) (st : state) : nat :=
  (Z.to_nat (max_retries cfg - attempt st)
   + Z.to_nat (max_events cfg - Z.of_nat (List.length (collected st))))%nat.

(** The items a decoded body contributes, if its shape allows. *)
Definition items_of (data : pyval) : result (list pyval) :=
  items <- page_items data ;; iterate items.

(** The server of the retry scenario: status 503 twice, then a page
    with one event, then an empty page. *)
Definition flaky_server : server :=
  fun n _ =>
    match n with
    | 0%nat | 1%nat => Reply 503 (Raise ValueError)
    | 2%nat => Reply 200 (Ok (envelope [PyDict [("id", PyInt 1)]]))
    | _ => Reply 200 (Ok (envelope []))
    end.

(** A server that is unavailable once before each of two pages: 503,
    a page, 503, a page, then an empty page. *)
Definition flaky_pages_server : server :=
  fun n _ =>
    match n with
    | 0%nat | 2%nat => Reply 503 (Raise ValueError)
    | 1%nat => Reply 200 (Ok (envelope [PyDict [("id", PyInt 1)]]))
    | 3%nat => Reply 200 (Ok (envelope [PyDict [("id", PyInt 2)]]))
    | _ => Reply 200 (Ok (envelope []))
    end.

(** A server whose second answer has status 200 and a body with a null
    [resource], after a first page of one event. *)
Definition null_resource_server : server :=
  fun n _ =>
    match n with
    | 0%nat => Reply 200 (Ok (envelope [PyDict [("id", PyInt 1)]]))
    | _ => Reply 200 (Ok (PyDict [("resource", PyNone)]))
    end.

End FetchSpec.

Module FrameSpec.

(** What [sort_values] promises whatever the algorithm: the rows come
    back rearranged, in ascending order of the sort column. *)
Definition ascending {A : Type} (key : A -> Z) (l : list A) : Prop :=
  StronglySorted (fun a b => key a <= key b) l.

Definition sorts (rt : runtime) : Prop :=
  forall (A : Type) (key : A -> Z) (l : list A),
    Permutation (sort_values rt key l) l /\ ascending key (sort_values rt key l).


Definition uid (x : nat * row) : pyval := user_id (snd x).


(** The class of a cell under the duplicate test; a list or a mapping
    has none. *)
Inductive key_class : Type :=
| KText (s : string)
| KNumber (z : Z)
| KNone
| KNaN.

Definition class_of (v : pyval) : option key_class :=
  match v with
  | PyStr s => Some (KText s)
  | PyInt z => Some (KNumber z)
  | PyBool b => Some (KNumber (if b then 1 else 0))
  | PyNone => Some KNone
  | PyNaN => Some KNaN
  | PyList _ | PyDict _ => None
  end.

(** What a row of [df] holds for the record it comes from. *)
Definition row_of (x : nat * (event * Z)) (y : nat * row) : Prop :=
  fst y = fst x
  /\ raw (snd y) = fst (snd x)
  /\ datetime_utc (snd y) = utc_timestamp (snd (snd x))
  /\ instant (datetime_local (snd y)) = snd (snd x)
  /\ hora (snd y) = hour (datetime_local (snd y)).

(** *** Sample inputs *)

Definition contact_of (u : string) : pyval := PyDict [("Identity", PyStr u)].

Definition visit (n : Z) (storageDate : string) (u : string) : event :=
  [("id", PyInt n); ("storageDate", PyStr storageDate); ("contact", contact_of u)].

(** The example of the specification: one user, at 10:00 and then at
    09:00 of the same day. *)
Definition two_visits : list event :=
  [visit 1 "2024-03-05T10:00:00Z" "u1"; visit 2 "2024-03-05T09:00:00Z" "u1"].

(** One user, twice at the same instant. *)
Definition tied_visits : list event :=
  [visit 1 "2024-03-05T10:00:00Z" "u1"; visit 2 "2024-03-05T10:00:00Z" "u1"].

(** Two users at the same instant. *)
Definition tied_users : list event :=
  [visit 1 "2024-03-05T10:00:00Z" "u1"; visit 2 "2024-03-05T10:00:00Z" "u2"].




(** A record with a readable [storageDate], and one with none that has a
    readable [eventDate]. *)
Definition mixed_dates : list event :=
  [visit 1 "2024-03-05T10:00:00Z" "u1";
   [("id", PyInt 2); ("eventDate", PyStr "2024-03-05T09:00:00Z");
    ("contact", contact_of "u2")]].

(** The normalised rows of [tied_users] in UTC, and their first-contact
    table under the stable reference sort. *)
Definition tied_users_df : frame :=
  match normalize Reference.stable tied_users (fun _ => 0) 9 18 with
  | Ok f => f
  | Raise _ => []
  end.

Definition tied_users_first : frame :=
  match first_contact Reference.stable tied_users_df with
  | Ok T => T
  | Raise _ => []
  end.

(** Records that have only an [eventDate]. *)
Definition event_dates_only : list event :=
  [[("id", PyInt 1); ("eventDate", PyStr "2024-03-05T10:00:00Z");
    ("contact", contact_of "u1")];
   [("id", PyInt 2); ("eventDate", PyStr "2024-03-05T09:00:00Z");
    ("contact", contact_of "u2")]].

(** The [id] cells of a table, row by row. *)
Definition ids (df : dataframe) : list pyval :=
  match df with
  | NoColumns _ => []
  | Normalized _ rows => map (fun x => cell (raw (snd x)) "id") rows
  end.

End FrameSpec.

Module SummarySpec.

Import Summary.

(** Half a unit in the last place of a binary64 number between 1 and
    2: [2^-53]. *)
Definition eps : Q := 1 # 9007199254740992.

(** [x] lies between [q * lo] and [q * hi]. *)
Definition within (q x lo hi : Q) : Prop := (q * lo <= x /\ x <= q * hi)%Q.

(** The bounds that four roundings and one rounded divisor leave. *)
Definition lo1 : Q := 1 * (1 - eps).
Definition hi1 : Q := 1 * (1 + eps).
Definition lo4 : Q := lo1 / hi1 * (1 - eps) * (1 - eps) * (1 - eps).
Definition hi4 : Q := hi1 / lo1 * (1 + eps) * (1 + eps) * (1 + eps).

(** A first-contact table with one row per bucket label of [labels]. *)
Definition table_of (labels : list bucket) : frame :=
  map (fun h => (0%nat, {| raw := []; datetime_utc := utc_timestamp 0;
                            datetime_local := utc_timestamp 0;
                            hora := 0; user_id := PyStr "u";
                            horario_comercial := h |}))
      labels.

(** The labels and the percentages of [resumo], each percentage as a
    fraction in lowest terms. *)
Definition resumo_cells (r : result summary) : list (bucket * Z * Q) :=
  match r with
  | Ok s => map (fun r => (horario r, usuarios_unicos r, Qred (percentual r)))
                (resumo s)
  | Raise _ => []
  end.

End SummarySpec.

(* ===================================================================== *)
(** * Properties                                                          *)
(* ===================================================================== *)

(** ** [business_bucket] *)

Module BucketFacts.

Lemma business_bucket_total (hour : pyval) (start_h end_h : Z) :
  business_bucket hour start_h end_h = Ok Dentro
  \/ business_bucket hour start_h end_h = Ok Fora.
Proof.
  unfold business_bucket.
  destruct (Py.int hour) as [h | e]; [| now right].
  destruct (start_h <=? end_h).
  - destruct ((start_h <=? h) && (h <? end_h)); auto.
  - destruct ((h >=? start_h) || (h <? end_h)); auto.
Qed.

(** C1. Whatever the hour value and the pair of bounds (in particular
    for bounds between 0 and 23): when [int(hour)] gives [h], a normal
    window ([start_h <= end_h]) classifies it Dentro exactly when
    [start_h <= h < end_h], a wrapping window ([start_h > end_h]) exactly
    when [h >= start_h] or [h < end_h], and the answer is one of the two
    labels; when [int(hour)] raises, the answer is Fora.  No call
    raises. *)
Theorem business_bucket_classifies (hour : pyval) (start_h end_h : Z) :
  match Py.int hour with
  | Ok h =>
      (start_h <= end_h ->
       (business_bucket hour start_h end_h = Ok Dentro <-> start_h <= h < end_h))
      /\ (start_h > end_h ->
          (business_bucket hour start_h end_h = Ok Dentro
           <-> (h >= start_h \/ h < end_h)))
      /\ (business_bucket hour start_h end_h = Ok Dentro
          \/ business_bucket hour start_h end_h = Ok Fora)
  | Raise _ => business_bucket hour start_h end_h = Ok Fora
  end.
Proof.
  pose proof (business_bucket_total hour start_h end_h) as Htot.
  unfold business_bucket in *.
  destruct (Py.int hour) as [h | e]; [| reflexivity].
  split; [| split]; [| | exact Htot].
  - intros Hle. apply Z.leb_le in Hle. rewrite Hle.
    destruct (Z.leb_spec start_h h), (Z.ltb_spec h end_h); simpl;
      split; intros Hb; try discriminate; try reflexivity; lia.
  - intros Hgt. assert (Hf : (start_h <=? end_h) = false) by (apply Z.leb_gt; lia).
    rewrite Hf.
    destruct (Z.geb_spec h start_h), (Z.ltb_spec h end_h); simpl;
      split; intros Hb; try discriminate; try reflexivity; lia.
Qed.

(** The hours the pipeline passes are integers: the classification read
    on them directly. *)
Lemma business_bucket_of_int (h start_h end_h : Z) :
  business_bucket (PyInt h) start_h end_h
  = Ok (if start_h <=? end_h
        then if (start_h <=? h) && (h <? end_h) then Dentro else Fora
        else if (h >=? start_h) || (h <? end_h) then Dentro else Fora).
Proof.
  unfold business_bucket; simpl. destruct (start_h <=? end_h); reflexivity.
Qed.

(** The examples of the specification: window 9 to 18, and the wrapping
    window 22 to 6. *)
Example business_bucket_examples :
  business_bucket (PyInt 10) 9 18 = Ok Dentro
  /\ business_bucket (PyInt 20) 9 18 = Ok Fora
  /\ business_bucket (PyInt 23) 22 6 = Ok Dentro
  /\ business_bucket (PyInt 10) 22 6 = Ok Fora
  /\ business_bucket (PyInt 5) 22 6 = Ok Dentro.
Proof. repeat split. Qed.

(** Values [int] refuses, and a numeric string it accepts. *)
Example business_bucket_malformed :
  business_bucket PyNone 9 18 = Ok Fora
  /\ business_bucket PyNaN 9 18 = Ok Fora
  /\ business_bucket (PyStr "dez") 9 18 = Ok Fora
  /\ business_bucket (PyList []) 9 18 = Ok Fora
  /\ business_bucket (PyStr " 10 ") 9 18 = Ok Dentro.
Proof. repeat split. Qed.

(** What [int] takes for white space and for too long: a no-break
    space around the digits is skipped, a unit separator (code point
    31) is not, and a literal of more than 4300 digits is refused. *)
Example int_of_str_edges :
  int_of_str (String (ascii_of_nat 160) "10" ++ String (ascii_of_nat 133) "")
  = Ok 10
  /\ int_of_str (String (ascii_of_nat 31) "10") = Raise ValueError
  /\ int_of_str (string_of_list_ascii (repeat "1"%char 4300))
     = Ok ((10 ^ 4300 - 1) / 9)
  /\ int_of_str (string_of_list_ascii (repeat "1"%char 4301))
     = Raise ValueError.
Proof. vm_compute. repeat split; reflexivity. Qed.

End BucketFacts.

(** ** [extract_identity] *)

Module IdentityFacts.

Lemma expect_app (p r : list ascii) : expect p (p ++ r)%list = Some r.
Proof.
  induction p as [| c p IH]; simpl; [reflexivity |].
  now rewrite Ascii.eqb_refl.
Qed.

Lemma expect_inv (p l r : list ascii) :
  expect p l = Some r -> l = (p ++ r)%list.
Proof.
  revert l; induction p as [| c p IH]; simpl; intros l H.
  - now inversion H.
  - destruct l as [| c' l']; [discriminate |].
    destruct (Ascii.eqb_spec c c') as [-> | _]; [| discriminate].
    now rewrite (IH _ H).
Qed.

Lemma lstrip_app (ws : list ascii) (c : ascii) (r : list ascii) :
  Forall (fun c => isspace c = true) ws -> isspace c = false ->
  lstrip (ws ++ c :: r)%list = c :: r.
Proof.
  intros Hws Hc. induction Hws as [| w ws Hw _ IH]; simpl.
  - now rewrite Hc.
  - now rewrite Hw.
Qed.

Lemma lstrip_inv (l : list ascii) (c : ascii) (r : list ascii) :
  lstrip l = c :: r ->
  exists ws, l = (ws ++ c :: r)%list
             /\ Forall (fun c => isspace c = true) ws /\ isspace c = false.
Proof.
  induction l as [| a l IH]; simpl; [discriminate |].
  destruct (isspace a) eqn:Ha; intros H.
  - destruct (IH H) as (ws & -> & Hws & Hc).
    exists (a :: ws). repeat split; auto.
  - inversion H; subst. exists []. repeat split; auto.
Qed.

Lemma span_value_app (v : list ascii) (q : ascii) (post : list ascii) :
  Forall (fun c => is_quote c = false) v -> is_quote q = true ->
  span_value (v ++ q :: post)%list = (v, q :: post).
Proof.
  intros Hv Hq. induction Hv as [| c v Hc _ IH]; simpl.
  - now rewrite Hq.
  - now rewrite Hc, IH.
Qed.

Lemma span_value_inv (l v rest : list ascii) :
  span_value l = (v, rest) ->
  l = (v ++ rest)%list
  /\ Forall (fun c => is_quote c = false) v
  /\ match rest with [] => True | q :: _ => is_quote q = true end.
Proof.
  revert v rest; induction l as [| c l IH]; simpl; intros v rest H.
  - inversion H; subst. repeat split; constructor.
  - destruct (is_quote c) eqn:Hc.
    + inversion H; subst. repeat split; auto.
    + destruct (span_value l) as [v' rest'] eqn:Hs.
      inversion H; subst.
      destruct (IH _ _ eq_refl) as (-> & Hv & Hr).
      repeat split; auto.
Qed.

Lemma quote_not_space (c : ascii) : is_quote c = true -> isspace c = false.
Proof.
  unfold is_quote. intros H. apply orb_true_iff in H.
  destruct H as [H | H]; apply Ascii.eqb_eq in H; subst; reflexivity.
Qed.

(** The matcher at one position finds exactly the occurrences of the
    pattern there. *)
Lemma match_at_iff (l v : list ascii) :
  match_at l = Some v <-> occurs_at_head l v.
Proof.
  split.
  - unfold match_at. intros H.
    destruct l as [| q1 r1]; [discriminate |].
    destruct (is_quote q1) eqn:Hq1; [| discriminate].
    destruct (expect _ r1) as [[| q2 r2] |] eqn:He; try discriminate.
    destruct (is_quote q2) eqn:Hq2; [| discriminate].
    destruct (lstrip r2) as [| c r3] eqn:Hl1; [discriminate |].
    destruct (Ascii.eqb_spec c ":"%char) as [-> | _]; [| discriminate].
    destruct (lstrip r3) as [| q3 r4] eqn:Hl2; [discriminate |].
    destruct (is_quote q3) eqn:Hq3; [| discriminate].
    destruct (span_value r4) as [[| x w] [| q4 post]] eqn:Hs; try discriminate.
    inversion H; subst v.
    apply expect_inv in He.
    apply lstrip_inv in Hl1. destruct Hl1 as (ws1 & -> & Hws1 & _).
    apply lstrip_inv in Hl2. destruct Hl2 as (ws2 & -> & Hws2 & _).
    apply span_value_inv in Hs. destruct Hs as (-> & Hv & Hq4).
    exists q1, q2, q3, q4, ws1, ws2, post. subst r1.
    repeat split; auto. discriminate.
  - intros (q1 & q2 & q3 & q4 & ws1 & ws2 & post & -> & Hq1 & Hq2 & Hq3 & Hq4
            & Hws1 & Hws2 & Hne & Hv).
    unfold match_at. rewrite Hq1, expect_app, Hq2.
    rewrite (lstrip_app ws1) by (auto; reflexivity).
    rewrite Ascii.eqb_refl.
    rewrite (lstrip_app ws2) by (auto using quote_not_space).
    rewrite Hq3, (span_value_app v q4 post Hv Hq4).
    destruct v; [contradiction | reflexivity].
Qed.

Lemma search_cons (c : ascii) (l : list ascii) :
  search (c :: l)
  = match match_at (c :: l) with Some v => Some v | None => search l end.
Proof. reflexivity. Qed.

(** [search] returns the match at the leftmost position that has one. *)
Lemma search_some (l v : list ascii) :
  search l = Some v ->
  exists pre suf, l = (pre ++ suf)%list /\ match_at suf = Some v
    /\ forall pre' suf', l = (pre' ++ suf')%list ->
         (List.length pre' < List.length pre)%nat -> match_at suf' = None.
Proof.
  induction l as [| c l IH].
  - cbv. discriminate.
  - rewrite search_cons. destruct (match_at (c :: l)) as [w |] eqn:Hm.
    + intros H; inversion H; subst.
      exists [], (c :: l). split; [reflexivity | split; [exact Hm |]].
      intros pre' suf' _ Hlt. simpl in Hlt. lia.
    + intros H. destruct (IH H) as (pre & suf & -> & Hs & Hleft).
      exists (c :: pre), suf. split; [reflexivity | split; [exact Hs |]].
      intros pre' suf' Heq Hlt.
      destruct pre' as [| c' pre'].
      * simpl in Heq. subst suf'. exact Hm.
      * simpl in Heq. inversion Heq; subst c'.
        apply (Hleft pre' suf'); auto. simpl in Hlt. lia.
Qed.

Lemma search_none (l : list ascii) :
  search l = None ->
  forall pre suf, l = (pre ++ suf)%list -> match_at suf = None.
Proof.
  induction l as [| c l IH].
  - intros _ pre suf H. symmetry in H. apply app_eq_nil in H.
    destruct H as [_ ->]. reflexivity.
  - rewrite search_cons.
    destruct (match_at (c :: l)) as [w |] eqn:Hm; [discriminate |].
    intros H pre suf Heq. destruct pre as [| c' pre].
    + simpl in Heq. now subst suf.
    + simpl in Heq. inversion Heq; subst. now apply (IH H pre suf).
Qed.

Lemma re_search_identity_some (text v : string) :
  re_search_identity text = Some v ->
  exists pre suf,
    list_ascii_of_string text = (pre ++ suf)%list
    /\ occurs_at_head suf (list_ascii_of_string v)
    /\ forall pre' suf' v', list_ascii_of_string text = (pre' ++ suf')%list ->
         (List.length pre' < List.length pre)%nat -> ~ occurs_at_head suf' v'.
Proof.
  unfold re_search_identity. intros H.
  destruct (search (list_ascii_of_string text)) as [w |] eqn:Hs; [| discriminate].
  inversion H; subst v. rewrite list_ascii_of_string_of_list_ascii.
  destruct (search_some _ _ Hs) as (pre & suf & Heq & Hm & Hleft).
  exists pre, suf. split; [exact Heq | split].
  - now apply match_at_iff.
  - intros pre' suf' v' Heq' Hlt Hocc. apply match_at_iff in Hocc.
    rewrite (Hleft pre' suf' Heq' Hlt) in Hocc. discriminate.
Qed.

Lemma re_search_identity_none (text : string) :
  re_search_identity text = None ->
  forall pre suf v, list_ascii_of_string text = (pre ++ suf)%list ->
    ~ occurs_at_head suf v.
Proof.
  unfold re_search_identity. intros H pre suf v Heq Hocc.
  destruct (search (list_ascii_of_string text)) as [w |] eqn:Hs; [discriminate |].
  apply match_at_iff in Hocc.
  rewrite (search_none _ Hs pre suf Heq) in Hocc. discriminate.
Qed.

(** What [extract_identity] does once [safe_json] has produced a
    mapping. *)
Lemma extract_identity_of_mapping (rt : runtime) (c : pyval)
  (kv : list (string * pyval)) :
  safe_json rt c = PyDict kv ->
  extract_identity rt c
  = Ok (match lookup_two kv with
        | Some s => Some s
        | None => re_search_identity (Py.str c)
        end).
Proof.
  intros H. unfold extract_identity, lookup_two. rewrite H. simpl.
  destruct (dict_get kv "identity") as [[| | | | s | |] |];
    try reflexivity;
    destruct (dict_get kv "Identity") as [[| | | | s' | |] |]; reflexivity.
Qed.

(** A reading that is not a mapping has no method [get]: the call
    raises. *)
Lemma extract_identity_not_mapping (rt : runtime) (c : pyval) :
  (forall kv, safe_json rt c <> PyDict kv) ->
  extract_identity rt c = Raise AttributeError.
Proof.
  intros H. unfold extract_identity.
  destruct (safe_json rt c) as [| | | | | |kv]; try reflexivity.
  now destruct (H kv).
Qed.

(** C6, as the code has it.  On a mapping, on a string whose strict JSON
    reading is a mapping, and on a string that only reads as a mapping
    once single quotes are replaced by double quotes, the result is the
    string value stored under [identity], else the one under [Identity]
    (no other spelling is looked up), else the group of the leftmost
    occurrence of the pattern in [str(value)], else null.  A string with
    no reading at all and a value that is neither string nor mapping get
    the pattern scan of [str(value)].  None of these calls raises.  The
    scan returns a group exactly when the pattern occurs.  The three
    examples of the specification hold. *)
Theorem extract_identity_amended (rt : runtime) :
  (forall kv,
     extract_identity rt (PyDict kv)
     = Ok (match lookup_two kv with
           | Some s => Some s
           | None => re_search_identity (Py.str (PyDict kv))
           end))
  /\ (forall text kv,
        json_loads rt (strip text) = Ok (PyDict kv) ->
        extract_identity rt (PyStr text)
        = Ok (match lookup_two kv with
              | Some s => Some s
              | None => re_search_identity text
              end))
  /\ (forall text e kv,
        json_loads rt (strip text) = Raise e ->
        json_loads rt (dq (strip text)) = Ok (PyDict kv) ->
        extract_identity rt (PyStr text)
        = Ok (match lookup_two kv with
              | Some s => Some s
              | None => re_search_identity text
              end))
  /\ (forall text e e',
        json_loads rt (strip text) = Raise e ->
        json_loads rt (dq (strip text)) = Raise e' ->
        extract_identity rt (PyStr text) = Ok (re_search_identity text))
  /\ (forall c,
        match c with PyStr _ | PyDict _ => False | _ => True end ->
        extract_identity rt c = Ok (re_search_identity (Py.str c)))
  /\ (forall text v,
        re_search_identity text = Some v ->
        exists pre suf,
          list_ascii_of_string text = (pre ++ suf)%list
          /\ occurs_at_head suf (list_ascii_of_string v)
          /\ forall pre' suf' v',
               list_ascii_of_string text = (pre' ++ suf')%list ->
               (List.length pre' < List.length pre)%nat ->
               ~ occurs_at_head suf' v')
  /\ (forall text,
        re_search_identity text = None ->
        forall pre suf v, list_ascii_of_string text = (pre ++ suf)%list ->
          ~ occurs_at_head suf v)
  /\ extract_identity Reference.stable (PyDict [("identity", PyStr "user-42")])
     = Ok (Some "user-42")
  /\ extract_identity Reference.stable (PyStr "{'Identity': 'user-7'}")
     = Ok (Some "user-7")
  /\ extract_identity Reference.stable (PyStr "garbage") = Ok None.
Proof.
  split; [| split; [| split; [| split; [| split; [| split; [| split]]]]]].
  - intros kv. now apply extract_identity_of_mapping.
  - intros text kv H.
    apply (extract_identity_of_mapping rt (PyStr text) kv).
    simpl. now rewrite H.
  - intros text e kv H1 H2.
    apply (extract_identity_of_mapping rt (PyStr text) kv).
    simpl. rewrite H1. unfold dq in H2. now rewrite H2.
  - intros text e e' H1 H2.
    rewrite (extract_identity_of_mapping rt (PyStr text) []); [reflexivity |].
    simpl. rewrite H1. unfold dq in H2. now rewrite H2.
  - intros c Hc.
    rewrite (extract_identity_of_mapping rt c []); [reflexivity |].
    destruct c; simpl; try reflexivity; contradiction.
  - exact re_search_identity_some.
  - exact re_search_identity_none.
  - repeat split; vm_compute; reflexivity.
Qed.

(** C6 as worded fails: a key spelled [IDENTITY] is the key [identity]
    once case is ignored and holds a string, yet the result is null, for
    the JSON text and for the mapping alike. *)
Lemma extract_identity_is_case_sensitive :
  Reference.json_loads (strip (dq "{'IDENTITY': 'user-9'}"))
  = Ok (PyDict [("IDENTITY", PyStr "user-9")])
  /\ lookup_caseless [("IDENTITY", PyStr "user-9")] = Some "user-9"
  /\ extract_identity Reference.stable (PyStr (dq "{'IDENTITY': 'user-9'}"))
     = Ok None
  /\ extract_identity Reference.stable (PyDict [("IDENTITY", PyStr "user-9")])
     = Ok None.
Proof. repeat split; vm_compute; reflexivity. Qed.

(** Further readings: strict JSON text, a mapping without the key whose
    text has the pattern, free text with the pattern, a missing cell. *)
Example extract_identity_more :
  extract_identity Reference.stable (PyStr (dq " {'identity': 'user-1', 'n': 3} "))
  = Ok (Some "user-1")
  /\ extract_identity Reference.stable
       (PyDict [("owner", PyDict [("Identity", PyStr "user-2")])])
     = Ok (Some "user-2")
  /\ extract_identity Reference.stable (PyStr "contact 'Identity' : 'user-3' end")
     = Ok (Some "user-3")
  /\ extract_identity Reference.stable (PyDict [("identity", PyInt 5)]) = Ok None
  /\ extract_identity Reference.stable PyNaN = Ok None.
Proof. repeat split; vm_compute; reflexivity. Qed.

(** A string whose JSON reading is not a mapping (here a telephone
    number, read as an integer) makes [extract_identity] raise. *)
Lemma extract_identity_raises (rt : runtime) (text : string) (v : pyval) :
  json_loads rt (strip text) = Ok v ->
  match v with PyDict _ => False | _ => True end ->
  extract_identity rt (PyStr text) = Raise AttributeError.
Proof.
  intros H Hv. apply extract_identity_not_mapping.
  intros kv. simpl. rewrite H. intros ->. exact Hv.
Qed.

Lemma extract_identity_raises_witness :
  json_loads Reference.stable (strip "5511999999999") = Ok (PyInt 5511999999999)
  /\ extract_identity Reference.stable (PyStr "5511999999999")
     = Raise AttributeError.
Proof.
  split; [vm_compute; reflexivity |].
  apply (extract_identity_raises Reference.stable "5511999999999"
           (PyInt 5511999999999)); [vm_compute; reflexivity | exact I].
Defined.

End IdentityFacts.

(** ** [fetch_events] *)

Module FetchFacts.

Import Fetch FetchSpec.

(** How the [try] block can end in a retry. *)
Lemma try_request_retry (cfg : config) (reply : response) (att : Z) (d : Q) :
  try_request cfg reply att = Ok (Retry d) ->
  att < max_retries cfg
  /\ d = (base_sleep cfg * inject_Z (2 ^ att))%Q
  /\ exists status json, reply = Reply status json /\ transient status = true.
Proof.
  unfold try_request. destruct reply as [| status json]; [discriminate |].
  destruct (status =? 401); [discriminate |].
  destruct (transient status) eqn:Ht.
  - destruct (Z.ltb_spec att (max_retries cfg)) as [Hlt | Hge].
    + unfold backoff_sleep.
      destruct (float_of_int _); simpl; [| discriminate].
      destruct (time_sleep _); simpl; [| discriminate].
      intros H; inversion H; subst. repeat split; eauto.
    + destruct (raise_for_status status); simpl; [| discriminate].
      destruct json; simpl; discriminate.
  - destruct (raise_for_status status); simpl; [| discriminate].
    destruct json; simpl; discriminate.
Qed.

(** The shapes of an iteration that goes on. *)
Lemma step_continue (cfg : config) (srv : server) (st st' : state) :
  step cfg srv st = Continue st' ->
  requests st' = S (requests st)
  /\ ((attempt st < max_retries cfg
       /\ attempt st' = attempt st + 1
       /\ sleeps st' = (sleeps st
                        ++ [(base_sleep cfg * inject_Z (2 ^ attempt st))%Q])%list
       /\ collected st' = collected st /\ skip st' = skip st)
      \/ (exists items,
            items <> []
            /\ collected st' = (collected st ++ items)%list
            /\ Z.of_nat (List.length (collected st')) < max_events cfg
            /\ attempt st' = attempt st /\ sleeps st' = sleeps st
            /\ skip st' = skip st + take cfg)).
Proof.
  unfold step.
  destruct (try_request cfg _ (attempt st)) as [[d | data] | e] eqn:Ht;
    [| | discriminate].
  - intros H; inversion H; subst; simpl. split; [reflexivity | left].
    apply try_request_retry in Ht. destruct Ht as (Hlt & -> & _).
    repeat split; auto.
  - destruct (items <- page_items data;; iterate items) as [items | e];
      [| discriminate].
    destruct items as [| x items]; [discriminate |]. cbn [orb].
    destruct (Z.geb_spec (Z.of_nat (List.length (collected st ++ x :: items)))
                (max_events cfg)) as [Hge | Hlt]; [discriminate |].
    intros H; inversion H; subst; simpl. split; [reflexivity | right].
    exists (x :: items). repeat split; auto. discriminate.
Qed.

(** How the [try] block can end with decoded data. *)
Lemma try_request_data (cfg : config) (reply : response) (att : Z) (data : pyval) :
  try_request cfg reply att = Ok (Data data) ->
  exists status, reply = Reply status (Ok data).
Proof.
  unfold try_request. destruct reply as [| status json]; [discriminate |].
  destruct (status =? 401); [discriminate |].
  destruct (transient status).
  - destruct (att <? max_retries cfg).
    + destruct (backoff_sleep cfg att); discriminate.
    + destruct (raise_for_status status); simpl; [| discriminate].
      destruct json; simpl; [| discriminate].
      intros H; inversion H; subst. eauto.
  - destruct (raise_for_status status); simpl; [| discriminate].
    destruct json; simpl; [| discriminate].
    intros H; inversion H; subst. eauto.
Qed.

(** The shapes of an iteration that ends the loop with [return]: what it
    appends is nothing, or the items of the page just received. *)
Lemma step_break (cfg : config) (srv : server) (st st' : state) :
  step cfg srv st = Break st' ->
  requests st' = S (requests st)
  /\ attempt st' = attempt st /\ sleeps st' = sleeps st
  /\ exists items,
       collected st' = (collected st ++ items)%list
       /\ (items = []
           \/ exists status data,
                srv (requests st) (skip st) = Reply status (Ok data)
                /\ items_of data = Ok items).
Proof.
  unfold step.
  destruct (try_request cfg _ (attempt st)) as [[d | data] | e] eqn:Ht.
  - discriminate.
  - apply try_request_data in Ht. destruct Ht as [status Hr].
    fold (items_of data).
    destruct (items_of data) as [items | e] eqn:Hi; [| discriminate].
    destruct (_ || _); [| discriminate].
    intros H; inversion H; subst; simpl. repeat split.
    exists items. split; [reflexivity | right; eauto].
  - intros H; inversion H; subst; simpl. repeat split.
    exists []. split; [now rewrite app_nil_r | now left].
Qed.

Lemma step_propagate (cfg : config) (srv : server) (st st' : state) (e : exn) :
  step cfg srv st = Propagate e st' ->
  requests st' = S (requests st)
  /\ attempt st' = attempt st /\ sleeps st' = sleeps st
  /\ collected st' = collected st.
Proof.
  unfold step.
  destruct (try_request cfg _ (attempt st)) as [[d | data] | e'];
    try discriminate.
  destruct (items <- page_items data;; iterate items) as [items | e'].
  - destruct (_ || _); discriminate.
  - intros H; inversion H; subst; simpl. repeat split.
Qed.

(** An iteration that goes on uses up budget. *)
Lemma step_continue_budget (cfg : config) (srv : server) (st st' : state) :
  step cfg srv st = Continue st' -> (budget cfg st' < budget cfg st)%nat.
Proof.
  intros H. apply step_continue in H.
  destruct H as [_ [(Hlt & Ha & _ & Hc & _) | (items & Hne & Hc & Hlt & Ha & _)]];
    unfold budget; rewrite Ha.
  - rewrite Hc. lia.
  - assert (Hlen : (List.length (collected st) < List.length (collected st'))%nat).
    { rewrite Hc, length_app. destruct items; [contradiction | simpl; lia]. }
    lia.
Qed.

(** The loop ends within [budget + 1] iterations. *)
Lemma loop_ends (cfg : config) (srv : server) (fuel : nat) (st : state) :
  (budget cfg st < fuel)%nat -> exists o, loop fuel cfg srv st = Some o.
Proof.
  revert st. induction fuel as [| fuel IH]; intros st Hlt; [lia |].
  simpl. destruct (step cfg srv st) as [st' | st' | e st'] eqn:Hs; eauto.
  apply IH. apply step_continue_budget in Hs. lia.
Qed.

(** More fuel does not change the outcome. *)
Lemma loop_more_fuel (cfg : config) (srv : server) (fuel fuel' : nat)
  (st : state) (o : outcome) :
  loop fuel cfg srv st = Some o -> (fuel <= fuel')%nat ->
  loop fuel' cfg srv st = Some o.
Proof.
  revert fuel' st. induction fuel as [| fuel IH]; intros fuel' st H Hle;
    [discriminate |].
  destruct fuel' as [| fuel']; [lia |].
  simpl in *. destruct (step cfg srv st); auto. apply IH; [exact H | lia].
Qed.

(** Invariant reasoning over the loop. *)
Lemma loop_invariant (cfg : config) (srv : server)
  (P : state -> Prop) (R : outcome -> Prop) :
  (forall st st', P st -> step cfg srv st = Continue st' -> P st') ->
  (forall st st', P st -> step cfg srv st = Break st' -> R (Returned st')) ->
  (forall st e st', P st -> step cfg srv st = Propagate e st' -> R (Raised e st')) ->
  forall fuel st o, P st -> loop fuel cfg srv st = Some o -> R o.
Proof.
  intros Hc Hb Hp. induction fuel as [| fuel IH]; intros st o HP H;
    [discriminate |].
  simpl in H. destruct (step cfg srv st) as [st' | st' | e st'] eqn:Hs.
  - apply (IH st'); [apply (Hc st); assumption | exact H].
  - inversion H; subst. apply (Hb st); assumption.
  - inversion H; subst. apply (Hp st); assumption.
Qed.

Lemma budget_initial (cfg : config) : S (budget cfg initial) = enough_fuel cfg.
Proof.
  unfold budget, enough_fuel, initial; simpl.
  now rewrite !Z.sub_0_r.
Qed.

Lemma items_of_envelope (items : list pyval) : items_of (envelope items) = Ok items.
Proof. unfold items_of, envelope. simpl. now destruct items. Qed.

(** C3, as the code has it.  Whatever the server answers, the loop ends:
    the call has an outcome, the same for any larger number of
    iterations, after at most [1 + max_retries + max_events] requests
    (negative parameters counting as zero).  The page that ends the
    loop is appended whole: the returned list is what was held before
    that page, which is empty or shorter than [max_events], followed by
    the page.  So when no page is longer than [take], the list has at
    most [max (max_events - 1) 0 + take] items. *)
Theorem fetch_events_bounded (cfg : config) (srv : server) :
  exists o,
    fetch_events cfg srv = Some o
    /\ (forall fuel, (enough_fuel cfg <= fuel)%nat ->
          loop fuel cfg srv initial = Some o)
    /\ (requests (final_state o) <= enough_fuel cfg)%nat
    /\ (exists before last,
          collected (final_state o) = (before ++ last)%list
          /\ (before = [] \/ Z.of_nat (List.length before) < max_events cfg)
          /\ (last = []
              \/ exists n skip status data,
                   srv n skip = Reply status (Ok data)
                   /\ items_of data = Ok last))
    /\ ((forall n skip status data items,
           srv n skip = Reply status (Ok data) -> items_of data = Ok items ->
           Z.of_nat (List.length items) <= take cfg) ->
        Z.of_nat (List.length (collected (final_state o)))
        <= Z.max (max_events cfg - 1) 0 + Z.max (take cfg) 0).
Proof.
  destruct (loop_ends cfg srv (enough_fuel cfg) initial) as [o Ho].
  { rewrite <- budget_initial. lia. }
  exists o. split; [exact Ho |].
  split; [intros fuel Hle; now apply (loop_more_fuel cfg srv _ _ _ _ Ho) |].
  pose (P := fun st : state =>
     (collected st = []
      \/ Z.of_nat (List.length (collected st)) < max_events cfg)
     /\ (requests st + budget cfg st <= budget cfg initial)%nat).
  pose (R := fun o : outcome =>
     (requests (final_state o) <= enough_fuel cfg)%nat
     /\ exists before last,
          collected (final_state o) = (before ++ last)%list
          /\ (before = [] \/ Z.of_nat (List.length before) < max_events cfg)
          /\ (last = []
              \/ exists n skip status data,
                   srv n skip = Reply status (Ok data)
                   /\ items_of data = Ok last)).
  assert (Hinv : R o).
  { apply (loop_invariant cfg srv P R) with (fuel := enough_fuel cfg) (st := initial);
      unfold P, R;
      [| | | split; [now left | simpl; lia] | exact Ho].
    - intros st st' [Hc Hr] Hs. pose proof (step_continue_budget _ _ _ _ Hs) as Hb.
      apply step_continue in Hs.
      destruct Hs as [Hq [(_ & _ & _ & Hcol & _) | (items & _ & _ & Hlt & _)]].
      + rewrite Hcol. split; [exact Hc | lia].
      + split; [now right | lia].
    - intros st st' [Hc Hr] Hs. apply step_break in Hs.
      destruct Hs as (Hq & _ & _ & items & Hcol & Hlast). simpl.
      split; [rewrite <- budget_initial; lia |].
      exists (collected st), items.
      split; [exact Hcol | split; [exact Hc |]].
      destruct Hlast as [-> | (status & data & Hr' & Hi)]; [now left | right].
      now exists (requests st), (skip st), status, data.
    - intros st e st' [Hc Hr] Hs. apply step_propagate in Hs.
      destruct Hs as (Hq & _ & _ & Hcol). simpl.
      split; [rewrite <- budget_initial; lia |].
      exists (collected st), []. rewrite app_nil_r.
      split; [exact Hcol | split; [exact Hc | now left]]. }
  destruct Hinv as [Hreq (before & last & Hcol & Hbefore & Hlast)].
  split; [exact Hreq |]. split; [now exists before, last |].
  intros Hpage. rewrite Hcol, length_app.
  assert (Hl : Z.of_nat (List.length last) <= Z.max (take cfg) 0).
  { destruct Hlast as [-> | (n & k & status & data & Hr & Hi)]; [simpl; lia |].
    specialize (Hpage _ _ _ _ _ Hr Hi). lia. }
  destruct Hbefore as [-> | Hlt]; simpl List.length; lia.
Qed.

(** C3 as worded fails: with [take = 300] and [max_events = 1000], a
    server that always sends a full page makes the call return 1200
    items, after 4 requests. *)
Lemma fetch_events_exceeds_max_events :
  option_map
    (fun o => (List.length (collected (final_state o)), requests (final_state o),
               match o with Returned _ => true | Raised _ _ => false end))
    (fetch_events
       {| take := 300; max_events := 1000; max_retries := 5; base_sleep := 8 # 10 |}
       (page_server (fun _ => repeat (PyDict []) 300)))
  = Some (1200%nat, 4%nat, true).
Proof. vm_compute. reflexivity. Qed.

Lemma transient_not_401 (status : Z) : transient status = true -> (status =? 401) = false.
Proof.
  unfold transient. intros H. apply Z.eqb_neq. intros ->. discriminate.
Qed.

Lemma transient_is_error (status : Z) :
  transient status = true -> raise_for_status status = Raise (HTTPError status).
Proof.
  unfold transient, raise_for_status. intros H.
  repeat (apply orb_true_iff in H; destruct H as [H | H]);
    apply Z.eqb_eq in H; subst; reflexivity.
Qed.

Lemma backoff_S (cfg : config) (n : nat) :
  backoff cfg (S n)
  = (backoff cfg n ++ [(base_sleep cfg * inject_Z (2 ^ Z.of_nat n))%Q])%list.
Proof. unfold backoff. now rewrite seq_S, map_app. Qed.

(** Over a whole run the counter only grows, by one per retry, and the
    delays slept are the first powers of two times [base_sleep]. *)
Lemma loop_backoff (cfg : config) (srv : server) (fuel : nat) (o : outcome) :
  loop fuel cfg srv initial = Some o ->
  0 <= attempt (final_state o) <= Z.max 0 (max_retries cfg)
  /\ sleeps (final_state o) = backoff cfg (Z.to_nat (attempt (final_state o))).
Proof.
  pose (P := fun st : state =>
     0 <= attempt st <= Z.max 0 (max_retries cfg)
     /\ sleeps st = backoff cfg (Z.to_nat (attempt st))).
  apply (loop_invariant cfg srv P (fun o => P (final_state o)));
    unfold P; simpl.
  - intros st st' [Ha Hs] Hstep. apply step_continue in Hstep.
    destruct Hstep as [_ [(Hlt & Ha' & Hs' & _) | (items & _ & _ & _ & Ha' & Hs' & _)]].
    + rewrite Ha', Hs', Hs. split; [lia |].
      replace (Z.to_nat (attempt st + 1)) with (S (Z.to_nat (attempt st))) by lia.
      rewrite backoff_S. now rewrite Z2Nat.id by lia.
    + now rewrite Ha', Hs'.
  - intros st st' [Ha Hs] Hstep. apply step_break in Hstep.
    destruct Hstep as (_ & Ha' & Hs' & _). now rewrite Ha', Hs'.
  - intros st e st' [Ha Hs] Hstep. apply step_propagate in Hstep.
    destruct Hstep as (_ & Ha' & Hs' & _). now rewrite Ha', Hs'.
  - split; [lia | reflexivity].
Qed.

Lemma backoff_sleep_delay (cfg : config) (att : Z) (d : Q) :
  backoff_sleep cfg att = Ok d -> d = (base_sleep cfg * inject_Z (2 ^ att))%Q.
Proof.
  unfold backoff_sleep.
  destruct (float_of_int _); simpl; [| discriminate].
  destruct (time_sleep _); simpl; [| discriminate].
  now intros H; inversion H.
Qed.

Lemma step_retry (cfg : config) (srv : server) (st : state) (status : Z)
  (json : result pyval) (d : Q) :
  srv (requests st) (skip st) = Reply status json ->
  transient status = true ->
  attempt st < max_retries cfg ->
  backoff_sleep cfg (attempt st) = Ok d ->
  d = (base_sleep cfg * inject_Z (2 ^ attempt st))%Q
  /\ step cfg srv st
     = Continue {| collected := collected st; skip := skip st;
                   attempt := attempt st + 1;
                   sleeps := (sleeps st ++ [d])%list;
                   requests := S (requests st) |}.
Proof.
  intros Hr Ht Hlt Hsleep. split; [now apply backoff_sleep_delay |].
  unfold step, try_request. rewrite Hr, (transient_not_401 _ Ht), Ht.
  apply Z.ltb_lt in Hlt. rewrite Hlt, Hsleep. reflexivity.
Qed.

Lemma step_page (cfg : config) (srv : server) (st : state)
  (items : list pyval) :
  srv (requests st) (skip st) = Reply 200 (Ok (envelope items)) ->
  let grown :=
    {| collected := (collected st ++ items)%list; skip := skip st;
       attempt := attempt st; sleeps := sleeps st;
       requests := S (requests st) |} in
  step cfg srv st = Break grown
  \/ step cfg srv st
     = Continue {| collected := (collected st ++ items)%list;
                   skip := skip st + take cfg; attempt := attempt st;
                   sleeps := sleeps st; requests := S (requests st) |}.
Proof.
  intros Hr grown. unfold step. rewrite Hr.
  change (try_request cfg (Reply 200 (Ok (envelope items))) (attempt st))
    with (@Ok attempt_result (Data (envelope items))).
  cbv beta iota. fold (items_of (envelope items)). rewrite items_of_envelope.
  destruct (_ || _); [now left | now right].
Qed.

(** C4.  The transient statuses are 429, 500, 502, 503 and 504.  (1) A
    request answered with a transient status while retries are left is
    sent again, with the same offset and nothing collected, after a
    sleep of [base_sleep * 2^attempt], and [attempt] grows by one (when
    the delay is one Python can compute and sleep, as the five delays
    of the defaults are).  (2) [attempt] is never reset:
    every run ends, and at its end [attempt] lies between 0 and
    [max_retries] and the delays slept over the whole run, whatever
    pages came in between, are [base_sleep * 2^k] for
    [k = 0 .. attempt - 1].  (3) Once [attempt]
    has reached [max_retries] a transient status ends the loop.  (4)
    With the defaults, a server that answers 503, 503 and then 200 with
    a page has the page collected by the third request, after exactly
    the delays 0.8 and 1.6; the run against [flaky_server] returns its
    one event after 4 requests and those 2 delays. *)
Theorem fetch_events_backoff (cfg : config) (srv : server) :
  (forall status,
     transient status = true <-> In status [429; 500; 502; 503; 504])
  /\ (forall st status json d,
        srv (requests st) (skip st) = Reply status json ->
        transient status = true ->
        attempt st < max_retries cfg ->
        backoff_sleep cfg (attempt st) = Ok d ->
        d = (base_sleep cfg * inject_Z (2 ^ attempt st))%Q
        /\ step cfg srv st
           = Continue {| collected := collected st; skip := skip st;
                         attempt := attempt st + 1;
                         sleeps := (sleeps st ++ [d])%list;
                         requests := S (requests st) |})
  /\ (max_retries default_config = 5
      /\ forall att, 0 <= att < 5 ->
           backoff_sleep default_config att
           = Ok ((8 # 10) * inject_Z (2 ^ att))%Q)
  /\ (exists o,
        fetch_events cfg srv = Some o
        /\ 0 <= attempt (final_state o) <= Z.max 0 (max_retries cfg)
        /\ sleeps (final_state o)
           = backoff cfg (Z.to_nat (attempt (final_state o))))
  /\ (forall st status json,
        srv (requests st) (skip st) = Reply status json ->
        transient status = true ->
        max_retries cfg <= attempt st ->
        step cfg srv st
        = Break {| collected := collected st; skip := skip st;
                   attempt := attempt st; sleeps := sleeps st;
                   requests := S (requests st) |})
  /\ (forall srv' json1 json2 page,
        srv' 0%nat 0 = Reply 503 json1 ->
        srv' 1%nat 0 = Reply 503 json2 ->
        srv' 2%nat 0 = Reply 200 (Ok (envelope page)) ->
        exists st2 st3,
          after 2 default_config srv' initial = Some st2
          /\ collected st2 = [] /\ sleeps st2 = [8 # 10; 16 # 10]
          /\ (step default_config srv' st2 = Continue st3
              \/ step default_config srv' st2 = Break st3)
          /\ collected st3 = page /\ sleeps st3 = [8 # 10; 16 # 10]
          /\ requests st3 = 3%nat)
  /\ fetch_events default_config flaky_server
     = Some (Returned {| collected := [PyDict [("id", PyInt 1)]];
                         skip := 500; attempt := 2;
                         sleeps := [8 # 10; 16 # 10]; requests := 4 |}).
Proof.
  split; [| split; [| split; [| split; [| split; [| split]]]]].
  - intros status. unfold transient. simpl.
    rewrite !orb_true_iff, !Z.eqb_eq. intuition (auto; lia).
  - intros st status json d. apply step_retry.
  - split; [reflexivity |]. intros att Hatt.
    assert (att = 0 \/ att = 1 \/ att = 2 \/ att = 3 \/ att = 4)
      as [-> | [-> | [-> | [-> | ->]]]] by lia; reflexivity.
  - destruct (loop_ends cfg srv (enough_fuel cfg) initial) as [o Ho].
    { rewrite <- budget_initial. lia. }
    exists o. split; [exact Ho | exact (loop_backoff cfg srv _ o Ho)].
  - intros st status json Hr Ht Hge.
    unfold step, try_request. rewrite Hr, (transient_not_401 _ Ht), Ht.
    apply Z.ltb_ge in Hge. rewrite Hge, (transient_is_error _ Ht). reflexivity.
  - intros srv' json1 json2 page H0 H1 H2.
    pose (st1 := {| collected := []; skip := 0; attempt := 1;
                    sleeps := [8 # 10]; requests := 1 |}).
    pose (st2 := {| collected := []; skip := 0; attempt := 2;
                    sleeps := [8 # 10; 16 # 10]; requests := 2 |}).
    assert (E1 : step default_config srv' initial = Continue st1).
    { apply (step_retry default_config srv' initial 503 json1 (8 # 10));
        [exact H0 | reflexivity | reflexivity | reflexivity]. }
    assert (E2 : step default_config srv' st1 = Continue st2).
    { apply (step_retry default_config srv' st1 503 json2 (16 # 10));
        [exact H1 | reflexivity | reflexivity | reflexivity]. }
    destruct (step_page default_config srv' st2 page H2) as [E3 | E3];
      simpl in E3.
    + exists st2; eexists. simpl after. rewrite E1, E2.
      split; [reflexivity |]. split; [reflexivity |]. split; [reflexivity |].
      split; [right; exact E3 |]. repeat split.
    + exists st2; eexists. simpl after. rewrite E1, E2.
      split; [reflexivity |]. split; [reflexivity |]. split; [reflexivity |].
      split; [left; exact E3 |]. repeat split.
  - vm_compute. reflexivity.
Qed.

(** The retry on the second page sleeps 1.6, not 0.8: the counter is not
    reset when a page comes in.  With a budget of one retry, the second
    503 ends the run with the first page. *)
Example backoff_across_pages :
  fetch_events default_config flaky_pages_server
  = Some (Returned {| collected := [PyDict [("id", PyInt 1)];
                                    PyDict [("id", PyInt 2)]];
                      skip := 1000; attempt := 2;
                      sleeps := [8 # 10; 16 # 10]; requests := 5 |})
  /\ fetch_events {| take := 500; max_events := 10000; max_retries := 1;
                     base_sleep := 8 # 10 |} flaky_pages_server
     = Some (Returned {| collected := [PyDict [("id", PyInt 1)]];
                         skip := 500; attempt := 1;
                         sleeps := [8 # 10]; requests := 3 |}).
Proof. split; vm_compute; reflexivity. Qed.

(** C5 fails on the code at [null_resource_server]: the answer with
    status 200 and a null [resource] makes the expression that reads the
    items raise [AttributeError] outside the [try], so the call raises
    and the event of the first page never reaches the caller. *)
Theorem fetch_events_propagates :
  fetch_events default_config null_resource_server
  = Some (Raised AttributeError
            {| collected := [PyDict [("id", PyInt 1)]]; skip := 500;
               attempt := 0; sleeps := []; requests := 2 |})
  /\ returned_list
       (Raised AttributeError
          {| collected := [PyDict [("id", PyInt 1)]]; skip := 500;
             attempt := 0; sleeps := []; requests := 2 |}) = None.
Proof. split; vm_compute; reflexivity. Qed.

(** What does hold of C5: an exception can only leave [fetch_events]
    from the expression that reads the items of a decoded body. *)
Lemma step_propagate_shape (cfg : config) (srv : server) (st st' : state) (e : exn) :
  step cfg srv st = Propagate e st' ->
  exists status data,
    srv (requests st) (skip st) = Reply status (Ok data)
    /\ items_of data = Raise e.
Proof.
  unfold step.
  destruct (try_request cfg _ (attempt st)) as [[d | data] | e'] eqn:Ht;
    try discriminate.
  apply try_request_data in Ht. destruct Ht as [status Hr].
  fold (items_of data). destruct (items_of data) as [items | e'] eqn:Hi.
  - destruct (_ || _); discriminate.
  - intros H; inversion H; subst. eauto.
Qed.

(** The failures the [try] catches end the loop at once with what is
    collected: no answer, a 401 (never retried), any other error status
    that is not transient, and a body that does not decode. *)
Lemma step_caught (cfg : config) (srv : server) (st : state) :
  (srv (requests st) (skip st) = NoResponse
   \/ (exists json, srv (requests st) (skip st) = Reply 401 json)
   \/ (exists status json,
         srv (requests st) (skip st) = Reply status json
         /\ transient status = false /\ 400 <= status < 600)
   \/ (exists status e,
         srv (requests st) (skip st) = Reply status (Raise e)
         /\ transient status = false)) ->
  step cfg srv st
  = Break {| collected := collected st; skip := skip st;
             attempt := attempt st; sleeps := sleeps st;
             requests := S (requests st) |}.
Proof.
  unfold step, try_request.
  intros [-> | [[json ->] | [(status & json & -> & Ht & Hs)
                            | (status & e & -> & Ht)]]].
  - reflexivity.
  - reflexivity.
  - rewrite Ht. unfold raise_for_status.
    destruct (status =? 401); [reflexivity |].
    assert (E : (400 <=? status) && (status <? 600) = true)
      by (apply andb_true_iff; split; [apply Z.leb_le | apply Z.ltb_lt]; lia).
    now rewrite E.
  - rewrite Ht. destruct (status =? 401); [reflexivity |].
    now destruct (raise_for_status status).
Qed.

(** When every decoded body has a readable shape, the call returns,
    whatever else the server does: a 401, a spent retry budget, a
    failed connection and an undecodable body all end the loop with
    what is collected. *)
Lemma fetch_events_returns (cfg : config) (srv : server) :
  (forall n skip status data,
     srv n skip = Reply status (Ok data) -> is_ok (items_of data) = true) ->
  exists st, fetch_events cfg srv = Some (Returned st).
Proof.
  intros Hshape.
  destruct (loop_ends cfg srv (enough_fuel cfg) initial) as [o Ho].
  { rewrite <- budget_initial. lia. }
  unfold fetch_events.
  destruct o as [st | e st]; [now exists st |].
  exfalso. revert Ho.
  apply (loop_invariant cfg srv (fun _ => True)
           (fun o => match o with Raised _ _ => False | _ => True end)
           ltac:(auto) ltac:(auto)) with (st := initial) (fuel := enough_fuel cfg) (o := Raised e st); auto.
  intros st0 e0 st0' _ Hs. apply step_propagate_shape in Hs.
  destruct Hs as (status & data & Hr & Hi).
  specialize (Hshape _ _ _ _ Hr). rewrite Hi in Hshape. discriminate.
Qed.

Lemma fetch_events_returns_witness :
  exists st, fetch_events default_config flaky_server = Some (Returned st).
Proof.
  apply (fetch_events_returns default_config flaky_server).
  intros n k status data H. unfold flaky_server in H.
  destruct n as [| [| [| n]]]; inversion H; reflexivity.
Defined.

End FetchFacts.

(** ** Sorting *)

Module SortFacts.

Import FrameSpec Reference.

Section InsertionSort.

Context {A : Type} (key : A -> Z).








End InsertionSort.




Lemma filter_none {A : Type} (f : A -> bool) (l : list A) :
  (forall x, In x l -> f x = false) -> filter f l = [].
Proof.
  induction l as [| y r IH]; simpl; intros H; [reflexivity |].
  rewrite (H y) by now left. apply IH. intros x Hx. apply H. now right.
Qed.



End SortFacts.

(** ** Duplicate removal *)

Module DedupFacts.

Import FrameSpec.

(** The duplicate test compares classes. *)
Lemma key_eqb_class (a b : pyval) :
  key_eqb a b = true
  <-> exists k, class_of a = Some k /\ class_of b = Some k.
Proof.
  destruct a as [| x | x | | x | x | x], b as [| y | y | | y | y | y]; simpl;
    split;
    try (intros H; discriminate H);
    try (intros (k & H1 & H2); congruence);
    try (intros _; eexists; split; reflexivity).
  - intros H. apply Bool.eqb_prop in H. subst. eexists; split; reflexivity.
  - intros (k & H1 & H2). destruct x, y; try reflexivity; congruence.
  - intros H. apply Z.eqb_eq in H. subst. eexists; split; reflexivity.
  - intros (k & H1 & H2). apply Z.eqb_eq. congruence.
  - intros H. apply Z.eqb_eq in H. subst. eexists; split; reflexivity.
  - intros (k & H1 & H2). apply Z.eqb_eq. congruence.
  - intros H. apply Z.eqb_eq in H. subst. eexists; split; reflexivity.
  - intros (k & H1 & H2). apply Z.eqb_eq. congruence.
  - intros H. apply String.eqb_eq in H. subst. eexists; split; reflexivity.
  - intros (k & H1 & H2). apply String.eqb_eq. congruence.
Qed.

Lemma key_eqb_sym (a b : pyval) : key_eqb a b = key_eqb b a.
Proof.
  destruct (key_eqb a b) eqn:H1, (key_eqb b a) eqn:H2; try reflexivity.
  - apply key_eqb_class in H1. destruct H1 as (k & Ha & Hb).
    assert (H : key_eqb b a = true) by (apply key_eqb_class; eauto). congruence.
  - apply key_eqb_class in H2. destruct H2 as (k & Ha & Hb).
    assert (H : key_eqb a b = true) by (apply key_eqb_class; eauto). congruence.
Qed.





(** A kept row is a row of the table. *)
Lemma keep_first_incl (seen : list pyval) (f : frame) (y : nat * row) :
  In y (keep_first seen f) -> In y f.
Proof.
  revert seen. induction f as [| x r IH]; simpl; intros seen H; [exact H |].
  destruct (existsb (key_eqb (user_id (snd x))) seen).
  - right. now apply (IH seen).
  - destruct H as [H | H]; [now left | right; now apply (IH _ H)].
Qed.





End DedupFacts.

(** ** Normalisation *)

Module FrameFacts.

Import FrameSpec DedupFacts SortFacts.

Lemma mapM_Forall2 {A B : Type} (f : A -> result B) (l : list A) (l' : list B) :
  mapM f l = Ok l' -> Forall2 (fun x y => f x = Ok y) l l'.
Proof.
  revert l'. induction l as [| x r IH]; simpl; intros l' H.
  - inversion H. constructor.
  - destruct (f x) as [y |] eqn:Hx; [| discriminate].
    destruct (mapM f r) as [ys |]; [| discriminate].
    inversion H; subst. constructor; [exact Hx | now apply IH].
Qed.

Lemma Forall2_combine {A B C : Type} (P : A * B -> C -> Prop)
  (l : list A) (u : list B) (m : list C) :
  List.length u = List.length l ->
  Forall2 P (combine l u) m ->
  Forall2 (fun x y => exists b, P (x, b) y) l m.
Proof.
  revert u m. induction l as [| x r IH]; intros u m Hlen H.
  - destruct u; [| discriminate]. inversion H. constructor.
  - destruct u as [| b u]; [discriminate |]. simpl in H.
    inversion H; subst. constructor; [eauto |].
    apply (IH u); [simpl in Hlen; lia | assumption].
Qed.

Lemma Forall2_in_r {A B : Type} (R : A -> B -> Prop) (l : list A) (l' : list B)
  (y : B) :
  Forall2 R l l' -> In y l' -> exists x, In x l /\ R x y.
Proof.
  induction 1 as [| x y' l l' Hxy _ IH]; simpl; intros Hin; [contradiction |].
  destruct Hin as [<- | Hin].
  - exists x. auto.
  - destruct (IH Hin) as (x' & Hx' & Hr). exists x'. auto.
Qed.

(** The rows [dropna] keeps are the records whose cell is an instant,
    under the position they have in the input. *)
Lemma dropna_datetime_in (i0 : nat) (records : list event) (ts : list (option Z))
  (i : nat) (e : event) (t : Z) :
  In (i, (e, t)) (dropna_datetime i0 records ts) ->
  exists j, i = (i0 + j)%nat
            /\ nth_error records j = Some e /\ nth_error ts j = Some (Some t).
Proof.
  revert i0 ts. induction records as [| e0 r IH]; intros i0 ts H; [contradiction |].
  destruct ts as [| [t0 |] ts]; simpl in H; [contradiction | |].
  - destruct H as [H | H].
    + inversion H; subst. exists 0%nat.
      split; [lia | split; reflexivity].
    + destruct (IH _ _ H) as (j & -> & Hr & Ht).
      exists (S j). split; [lia | split; assumption].
  - destruct (IH _ _ H) as (j & -> & Hr & Ht).
    exists (S j). split; [lia | split; assumption].
Qed.


(** *** Order along a list *)







(** *** [reset_index] *)

Lemma reset_index_rows (f : frame) : map snd (reset_index f) = map snd f.
Proof.
  unfold reset_index.
  assert (H : forall (l : list row) (i : nat),
            map snd (combine (seq i (List.length l)) l) = l).
  { induction l as [| x l IH]; intros i; simpl; [reflexivity |].
    now rewrite IH. }
  rewrite <- (length_map snd f). apply H.
Qed.






Section WithRuntime.

Variable rt : runtime.

Lemma user_id_column_length (records kept : list event) (uids : list pyval) :
  user_id_column rt records kept = Ok uids ->
  List.length uids = List.length kept.
Proof.
  unfold user_id_column. intros H.
  destruct (if has_column records "contact" then mapM (identity_cell rt) kept
            else Ok (map (fun _ => PyNone) kept)) as [ids |] eqn:Hids;
    simpl in H; [| discriminate].
  assert (Hlen : List.length ids = List.length kept).
  { destruct (has_column records "contact").
    - apply mapM_Forall2 in Hids. symmetry. exact (Forall2_length Hids).
    - inversion Hids. apply length_map. }
  destruct (forallb isna ids && has_column records "from");
    inversion H; subst; [apply length_map | exact Hlen].
Qed.

Lemma make_row_row_of (tz : zone) (start_h end_h : Z)
  (x : nat * (event * Z)) (u : pyval) (y : nat * row) :
  make_row tz start_h end_h x u = Ok y -> row_of x y.
Proof.
  destruct x as [i [e t]]. unfold make_row. cbn [to_local utc_timestamp instant].
  destruct (business_bucket _ start_h end_h) as [b |]; simpl; [| discriminate].
  intros H; inversion H; subst. repeat split.
Qed.

Lemma normalize_rows (records : list event) (tz : zone) (start_h end_h : Z)
  (df : frame) :
  normalize rt records tz start_h end_h = Ok df ->
  Forall2 row_of (dropna_datetime 0 records (datetime_utc_column rt records)) df.
Proof.
  unfold normalize. destruct (object_dtype records); [discriminate |].
  set (kept := dropna_datetime 0 records (datetime_utc_column rt records)).
  destruct (user_id_column rt records (map (fun x => fst (snd x)) kept))
    as [uids |] eqn:Hu; simpl; [| discriminate].
  intros H. apply mapM_Forall2 in H.
  apply user_id_column_length in Hu. rewrite length_map in Hu.
  apply (Forall2_combine _ _ _ _ Hu) in H.
  apply (Forall2_impl _ (R1 := fun x y => exists b,
           make_row tz start_h end_h (fst (x, b)) (snd (x, b)) = Ok y));
    [| exact H].
  intros x y (b & Hb). exact (make_row_row_of _ _ _ _ _ _ Hb).
Qed.


(** A row of [df] sits under the position of its record in the input,
    and its instant is the one read for that record. *)
Lemma normalize_in (records : list event) (tz : zone) (start_h end_h : Z)
  (df : frame) (i : nat) (r : row) :
  normalize rt records tz start_h end_h = Ok df ->
  In (i, r) df ->
  nth_error records i = Some (raw r)
  /\ nth_error (datetime_utc_column rt records) i
     = Some (Some (instant (datetime_utc r)))
  /\ instant (datetime_local r) = instant (datetime_utc r).
Proof.
  intros H Hin. apply normalize_rows in H.
  destruct (Forall2_in_r _ _ _ _ H Hin) as ([i' [e t]] & Hk & Hrow).
  destruct Hrow as (Hi & Hraw & Hutc & Hloc & _). simpl in *. subst i'.
  apply dropna_datetime_in in Hk. destruct Hk as (j & -> & Hr & Ht).
  rewrite Hraw, Hutc, Hloc. simpl. auto.
Qed.

(** *** The chain behind [df_unicos] *)

Lemma first_contact_labelled_inv (f kept : frame) :
  first_contact_labelled rt f = Ok kept ->
  kept = keep_first [] (dropna_user_id (sort_values rt sort_key f))
  /\ Forall (fun x => hashable (uid x) = true)
            (dropna_user_id (sort_values rt sort_key f)).
Proof.
  unfold first_contact_labelled, drop_duplicates.
  destruct (forallb _ _) eqn:Hh; [| discriminate].
  intros H; inversion H; subst. split; [reflexivity |].
  apply Forall_forall. intros x Hx.
  exact (proj1 (forallb_forall _ _) Hh x Hx).
Qed.

Lemma dropna_user_id_in (f : frame) (x : nat * row) :
  In x (dropna_user_id f) <-> In x f /\ isna (uid x) = false.
Proof.
  unfold dropna_user_id. rewrite filter_In. unfold uid.
  destruct (isna (user_id (snd x))); simpl; intuition discriminate.
Qed.




Lemma preprocess_inv (records : list event) (tz_name : string)
  (start_h end_h : Z) (cols : list string) (df : frame) (out : dataframe) :
  preprocess_and_unique rt records tz_name start_h end_h
  = Ok (Normalized cols df, out) ->
  exists tz kept,
    ZoneInfo rt tz_name = Ok tz
    /\ normalize rt records tz start_h end_h = Ok df
    /\ first_contact_labelled rt df = Ok kept
    /\ out = Normalized cols (reset_index kept).
Proof.
  unfold preprocess_and_unique.
  destruct (records_empty records); [discriminate |].
  destruct (ZoneInfo rt tz_name) as [tz |] eqn:Hz; simpl; [| discriminate].
  destruct (normalize rt records tz start_h end_h) as [df0 |] eqn:Hn; simpl;
    [| discriminate].
  unfold first_contact.
  destruct (first_contact_labelled rt df0) as [kept |] eqn:Hk; simpl;
    [| discriminate].
  intros H; inversion H; subst. exists tz, kept. auto.
Qed.




(** C10.  The fallback to [eventDate] is decided once for the whole
    batch.  When [preprocess_and_unique] returns its tables: if some
    record has a [storageDate] that parses, column [datetime_utc] is the
    parsed [storageDate] column, [eventDate] is not read, and a record
    whose [storageDate] is missing or does not parse has no row in [df],
    nor (the sort returning the rows it is given) in the first-contact
    table, whatever its [eventDate]; every row of [df] carries the
    instant of its own [storageDate].  Only when no
    [storageDate] parses, and the batch has a column [eventDate], is
    [eventDate] parsed in its place. *)
Theorem fallback_is_all_or_nothing (records : list event) (tz_name : string)
  (start_h end_h : Z) (cols cols' : list string) (df df_unicos : frame) :
  preprocess_and_unique rt records tz_name start_h end_h
  = Ok (Normalized cols df, Normalized cols' df_unicos) ->
  ((exists j t, nth_error (storage_parsed rt records) j = Some (Some t)) ->
   datetime_utc_column rt records = storage_parsed rt records
   /\ (forall i, nth_error (storage_parsed rt records) i = Some None ->
         ~ In i (map fst df))
   /\ (forall i r, In (i, r) df ->
         nth_error records i = Some (raw r)
         /\ nth_error (storage_parsed rt records) i
            = Some (Some (instant (datetime_utc r))))
   /\ (sorts rt -> forall x, In x df_unicos -> exists i, In (i, snd x) df))
  /\ ((forall j t, nth_error (storage_parsed rt records) j <> Some (Some t)) ->
      has_column records "eventDate" = true ->
      datetime_utc_column rt records
      = to_datetime rt (column records "eventDate")).
Proof.
  intros H. apply preprocess_inv in H.
  destruct H as (tz & kept & _ & Hn & Hk & Hout). inversion Hout; subst.
  split.
  - intros (j & t & Hj).
    assert (Hcol : datetime_utc_column rt records = storage_parsed rt records).
    { unfold datetime_utc_column.
      assert (E : forallb is_NaT (storage_parsed rt records) = false).
      { destruct (forallb is_NaT (storage_parsed rt records)) eqn:E; [| reflexivity].
        apply nth_error_In in Hj.
        pose proof (proj1 (forallb_forall _ _) E _ Hj) as Hf. discriminate. }
      now rewrite E. }
    split; [exact Hcol |].
    assert (Hrow : forall i r, In (i, r) df ->
              nth_error records i = Some (raw r)
              /\ nth_error (storage_parsed rt records) i
                 = Some (Some (instant (datetime_utc r)))).
    { intros i r Hin.
      destruct (normalize_in records tz start_h end_h df i r Hn Hin)
        as (Hr & Ht & _).
      rewrite Hcol in Ht. auto. }
    split; [| split; [exact Hrow |]].
    + intros i Hi Hin. apply in_map_iff in Hin.
      destruct Hin as ([i' r] & Hfst & Hin). simpl in Hfst. subst i'.
      destruct (Hrow i r Hin) as [_ Ht]. congruence.
    + intros Hsorts x Hx.
      assert (Hs : In (snd x) (map snd kept)).
      { rewrite <- reset_index_rows. now apply in_map. }
      apply in_map_iff in Hs. destruct Hs as ([i r] & Hy & Hin).
      exists i. simpl in Hy. subst r.
      apply first_contact_labelled_inv in Hk. destruct Hk as [-> _].
      apply keep_first_incl in Hin. apply dropna_user_id_in in Hin.
      destruct Hin as [Hin _].
      exact (Permutation_in _ (proj1 (Hsorts _ sort_key df)) Hin).
  - intros Hnone Hcol. unfold datetime_utc_column.
    assert (E : forallb is_NaT (storage_parsed rt records) = true).
    { apply forallb_forall. intros [t |] Hin; [| reflexivity].
      apply In_nth_error in Hin. destruct Hin as [j Hj].
      now destruct (Hnone j t). }
    now rewrite E, Hcol.
Qed.

End WithRuntime.


(** The example of the specification: of the visits at 10:00 and at
    09:00, the one at 09:00 is the first contact, whichever the kind of
    the sort. *)
Example first_contact_two_visits :
  option_map (fun p => (ids (fst p), ids (snd p)))
    (match preprocess_and_unique Reference.stable two_visits "UTC" 9 18 with
     | Ok p => Some p
     | Raise _ => None
     end)
  = Some ([PyInt 1; PyInt 2], [PyInt 2])
  /\ option_map (fun p => (ids (fst p), ids (snd p)))
       (match preprocess_and_unique Reference.quicksort two_visits "UTC" 9 18 with
        | Ok p => Some p
        | Raise _ => None
        end)
     = Some ([PyInt 1; PyInt 2], [PyInt 2]).
Proof. split; vm_compute; reflexivity. Qed.

(** Two rows at one instant stay in the order of the input under the
    default sort as well: a table this short goes to the insertion
    sort. *)
Example first_contact_two_tied :
  match preprocess_and_unique Reference.quicksort tied_visits "UTC" 9 18 with
  | Ok (df, df_unicos) =>
      ids df = [PyInt 1; PyInt 2] /\ ids df_unicos = [PyInt 1]
  | Raise _ => False
  end.
Proof. vm_compute. split; reflexivity. Qed.

(** What the quicksort of numpy does with eighteen equal instants: the
    one partition swaps the entries around the middle, and the two
    halves go to the insertion sort as they are. *)
Example aquicksort_eighteen_equal :
  Reference.NumpySort.aquicksort (repeat 0 18)
  = [0; 15; 14; 13; 12; 11; 10; 9; 8; 7; 6; 5; 4; 3; 2; 1; 16; 17]%nat.
Proof. vm_compute. reflexivity. Qed.

(** The quicksort puts keys in ascending order: forty-one different
    keys, given as the multiples of 7 modulo 41. *)
Example aquicksort_sample :
  let keys := map (fun i => (7 * Z.of_nat i) mod 41) (seq 0 41) in
  Reference.NumpySort.sort_values (fun k => k) keys = map Z.of_nat (seq 0 41).
Proof. vm_compute. reflexivity. Qed.




(** When no record has a [storageDate], the instants are those of
    [eventDate]. *)
Example fallback_used :
  match preprocess_and_unique Reference.stable event_dates_only "UTC" 9 18 with
  | Ok (Normalized _ df, df_unicos) =>
      map (fun x => instant (datetime_utc (snd x))) df
      = [1709632800000000000; 1709629200000000000]
      /\ ids df_unicos = [PyInt 2; PyInt 1]
  | _ => False
  end.
Proof. vm_compute. split; reflexivity. Qed.

Lemma fallback_is_all_or_nothing_witness :
  exists cols df cols' df_unicos,
    preprocess_and_unique Reference.stable mixed_dates "America/Sao_Paulo" 9 18
    = Ok (Normalized cols df, Normalized cols' df_unicos)
    /\ storage_parsed Reference.stable mixed_dates
       = [Some 1709632800000000000; None]
    /\ to_datetime Reference.stable (column mixed_dates "eventDate")
       = [None; Some 1709629200000000000]
    /\ ~ In 1%nat (map fst df).
Proof.
  do 4 eexists. split; [vm_compute; reflexivity |].
  split; [vm_compute; reflexivity |]. split; [vm_compute; reflexivity |].
  destruct (fallback_is_all_or_nothing Reference.stable mixed_dates
              "America/Sao_Paulo" 9 18 _ _ _ _ ltac:(vm_compute; reflexivity))
    as [H _].
  destruct H as (_ & H & _).
  - exists 0%nat, 1709632800000000000. vm_compute. reflexivity.
  - apply H. vm_compute. reflexivity.
Defined.

End FrameFacts.
(** ** [summarize] *)

Module SummaryFacts.

Import Summary FrameSpec SummarySpec.

(** *** Rounding *)

(** [round_half_even] read on a numerator and a positive denominator. *)
Lemma round_half_even_cases (n d : Z) :
  0 < d ->
  forall r, r = (let f := n / d in
                 match Z.compare (2 * (n mod d)) d with
                 | Lt => f
                 | Gt => f + 1
                 | Eq => if Z.even f then f else f + 1
                 end) ->
  (- d < 2 * (n - r * d) < d)
  \/ (2 * (n - r * d) = d /\ Z.even r = true)
  \/ (2 * (n - r * d) = - d /\ Z.even r = true).
Proof.
  intros Hd r ->. cbv zeta.
  pose proof (Z.div_mod n d ltac:(lia)) as Hdm.
  pose proof (Z.mod_pos_bound n d Hd) as Hm.
  destruct (Z.compare_spec (2 * (n mod d)) d) as [E | L | G].
  - destruct (Z.even (n / d)) eqn:Hev.
    + right; left. split; [nia | exact Hev].
    + right; right. split; [nia |].
      rewrite Z.even_add, Hev. reflexivity.
  - left. nia.
  - left. nia.
Qed.

Lemma round_half_even_spec (q : Q) :
  let n := Qnum q in
  let d := Z.pos (Qden q) in
  let r := round_half_even q in
  (- d < 2 * (n - r * d) < d)
  \/ (2 * (n - r * d) = d /\ Z.even r = true)
  \/ (2 * (n - r * d) = - d /\ Z.even r = true).
Proof.
  cbv zeta. apply round_half_even_cases; [lia | reflexivity].
Qed.

(** *** Floats *)

Lemma round_half_even_error (x : Q) :
  (Qabs (inject_Z (round_half_even x) - x) <= 1 # 2)%Q.
Proof.
  pose proof (round_half_even_spec x) as H. cbv zeta in H.
  destruct x as [n d]. cbn [Qnum Qden] in H.
  set (r := round_half_even (n # d)) in *.
  apply Qabs_Qle_condition.
  unfold Qle, Qminus, Qplus, Qopp, inject_Z. cbn [Qnum Qden].
  rewrite ?Pos2Z.inj_mul. split; nia.
Qed.

Lemma two_nonzero : ~ ((2 # 1) == 0)%Q.
Proof. discriminate. Qed.

Lemma pow2_pos (e : Z) : (0 < (2 # 1) ^ e)%Q.
Proof. now apply Qpower_0_lt. Qed.

Lemma pow2_inject (z : Z) : 0 <= z -> (inject_Z (2 ^ z) == (2 # 1) ^ z)%Q.
Proof. intros H. now rewrite (Zpower_Qpower 2 z H). Qed.

(** [ilog2] brackets the magnitude. *)
Lemma ilog2_spec (q : Q) :
  ~ (q == 0)%Q ->
  ((2 # 1) ^ ilog2 q <= Qabs q)%Q /\ (Qabs q < (2 # 1) ^ (ilog2 q + 1))%Q.
Proof.
  intros Hq. unfold ilog2.
  set (n := Z.abs (Qnum q)). set (d := Z.pos (Qden q)).
  assert (Hn : 0 < n).
  { unfold n. assert (Qnum q <> 0); [| lia].
    intros E. apply Hq. unfold Qeq. simpl. rewrite E. reflexivity. }
  assert (Hd : 0 < d) by (unfold d; lia).
  destruct (Z.log2_spec n Hn) as [Hn1 Hn2].
  destruct (Z.log2_spec d Hd) as [Hd1 Hd2].
  pose proof (Z.log2_nonneg n) as Hln. pose proof (Z.log2_nonneg d) as Hld.
  set (ln := Z.log2 n) in *. set (ld := Z.log2 d) in *.
  assert (Habs : (Qabs q == inject_Z n / inject_Z d)%Q).
  { destruct q as [a b]. unfold n, d. cbn [Qnum Qden Qabs].
    unfold Qeq, Qdiv, Qmult, Qinv, inject_Z. cbn [Qnum Qden]. lia. }
  assert (Hdq : (0 < inject_Z d)%Q) by (unfold Qlt; simpl; lia).
  (* the magnitude lies strictly between 2^(k-1) and 2^(k+1) *)
  assert (Hup : (Qabs q < (2 # 1) ^ (ln - ld + 1))%Q).
  { rewrite Habs. apply Qlt_shift_div_r; [exact Hdq |].
    apply (Qlt_le_trans _ ((2 # 1) ^ (ln + 1))).
    - rewrite <- pow2_inject by lia. rewrite <- Zlt_Qlt. exact Hn2.
    - replace (ln - ld + 1) with ((ln + 1) - ld) by lia.
      rewrite Qpower_minus by exact two_nonzero.
      unfold Qdiv. rewrite <- Qmult_assoc.
      rewrite <- (Qmult_1_r ((2 # 1) ^ (ln + 1))) at 1.
      apply Qmult_le_l; [apply pow2_pos |].
      apply (Qmult_le_l _ _ ((2 # 1) ^ ld)); [apply pow2_pos |].
      rewrite Qmult_assoc, Qmult_inv_r, Qmult_1_l, Qmult_1_r
        by (apply Qpower_not_0; exact two_nonzero).
      rewrite <- pow2_inject by lia. rewrite <- Zle_Qle. exact Hd1. }
  assert (Hlow : ((2 # 1) ^ (ln - ld - 1) <= Qabs q)%Q).
  { rewrite Habs. apply Qle_shift_div_l; [exact Hdq |].
    apply (Qle_trans _ ((2 # 1) ^ ln)).
    - replace (ln - ld - 1) with (ln - (ld + 1)) by lia.
      rewrite Qpower_minus by exact two_nonzero.
      unfold Qdiv. rewrite <- Qmult_assoc.
      rewrite <- (Qmult_1_r ((2 # 1) ^ ln)) at 2.
      apply Qmult_le_l; [apply pow2_pos |].
      apply (Qmult_le_l _ _ ((2 # 1) ^ (ld + 1))); [apply pow2_pos |].
      rewrite Qmult_assoc, Qmult_inv_r, Qmult_1_l, Qmult_1_r
        by (apply Qpower_not_0; exact two_nonzero).
      rewrite <- pow2_inject by lia. rewrite <- Zle_Qle. lia.
    - rewrite <- pow2_inject by lia. rewrite <- Zle_Qle. exact Hn1. }
  destruct (Qle_bool ((2 # 1) ^ (ln - ld)) (Qabs q)) eqn:Ht.
  - apply Qle_bool_iff in Ht. split; [exact Ht | exact Hup].
  - split.
    + exact Hlow.
    + replace (ln - ld - 1 + 1) with (ln - ld) by lia.
      apply Qnot_le_lt. intros H. apply Qle_bool_iff in H. congruence.
Qed.

Lemma ilog2_lower (q : Q) (m : Z) :
  ~ (q == 0)%Q -> ((2 # 1) ^ m <= Qabs q)%Q -> m <= ilog2 q.
Proof.
  intros Hq Hm. destruct (ilog2_spec q Hq) as [_ Hup].
  assert (H : ((2 # 1) ^ m < (2 # 1) ^ (ilog2 q + 1))%Q)
    by (eapply Qle_lt_trans; eassumption).
  apply Qpower_lt_compat_l_inv in H; [lia | reflexivity].
Qed.

(** A number in the normal range is rounded with a relative error of at
    most [2^-53]. *)
Lemma binary64_error (q : Q) :
  ~ (q == 0)%Q -> ((2 # 1) ^ (- 1022) <= Qabs q)%Q ->
  (Qabs (binary64 q - q) <= Qabs q * eps)%Q.
Proof.
  intros Hq Hrange. unfold binary64.
  assert (Hn : (Qnum q =? 0) = false).
  { apply Z.eqb_neq. intros E. apply Hq. unfold Qeq. simpl. now rewrite E. }
  rewrite Hn. cbv zeta.
  pose proof (ilog2_lower q _ Hq Hrange) as HL.
  rewrite Z.max_l by lia.
  set (e := ilog2 q - 52).
  set (P := ((2 # 1) ^ e)%Q).
  assert (HP : (0 < P)%Q) by apply pow2_pos.
  assert (Hinv : ((2 # 1) ^ (- e) == / P)%Q) by apply Qpower_opp.
  set (s := (q * (2 # 1) ^ (- e))%Q).
  assert (Hs : (s * P == q)%Q).
  { unfold s. rewrite Hinv. field. lra. }
  assert (E : (inject_Z (round_half_even s) * P - q
               == (inject_Z (round_half_even s) - s) * P)%Q).
  { rewrite <- Hs at 1. ring. }
  rewrite E, Qabs_Qmult, (Qabs_pos P) by lra.
  pose proof (round_half_even_error s) as Herr.
  destruct (ilog2_spec q Hq) as [Hlow _].
  assert (HPL : (P * inject_Z (2 ^ 52) == (2 # 1) ^ ilog2 q)%Q).
  { unfold P, e. rewrite pow2_inject by lia.
    rewrite <- Qpower_plus by exact two_nonzero.
    now replace (ilog2 q - 52 + 52) with (ilog2 q) by lia. }
  assert (Hhalf : ((1 # 2) * P <= Qabs q * eps)%Q).
  { rewrite <- HPL in Hlow. unfold eps.
    change (2 ^ 52) with 4503599627370496 in Hlow.
    unfold inject_Z in Hlow. lra. }
  apply (Qle_trans _ ((1 # 2) * P)); [| exact Hhalf].
  apply Qmult_le_compat_r; [exact Herr | lra].
Qed.

Lemma tiny_bound : ((2 # 1) ^ (- 1022) <= 1 # (1180591620717411303424))%Q.
Proof. apply Qle_bool_iff. vm_compute. reflexivity. Qed.

Lemma binary64_within (q x lo hi : Q) :
  (1 # (1180591620717411303424) <= q * lo)%Q ->
  within q x lo hi ->
  within q (binary64 x) (lo * (1 - eps)) (hi * (1 + eps)).
Proof.
  intros Hlo [H1 H2].
  assert (Hx : (0 < x)%Q).
  { apply (Qlt_le_trans _ (1 # 1180591620717411303424)); [reflexivity |].
    now apply (Qle_trans _ (q * lo)). }
  assert (Hx0 : ~ (x == 0)%Q) by lra.
  assert (Habs : (Qabs x == x)%Q) by (apply Qabs_pos; lra).
  pose proof (binary64_error x Hx0) as He.
  rewrite Habs in He.
  specialize (He ltac:(pose proof tiny_bound; lra)).
  apply Qabs_Qle_condition in He. destruct He as [He1 He2].
  unfold within, eps in *.
  split.
  - apply (Qle_trans _ (x * (1 - (1 # 9007199254740992)))); [| lra].
    rewrite Qmult_assoc. apply Qmult_le_compat_r; [exact H1 | discriminate].
  - apply (Qle_trans _ (x * (1 + (1 # 9007199254740992)))); [lra |].
    rewrite Qmult_assoc. apply Qmult_le_compat_r; [exact H2 | discriminate].
Qed.

Lemma within_scale (q x lo hi c : Q) :
  (0 <= c)%Q -> within q x lo hi -> within (q * c) (x * c) lo hi.
Proof.
  intros Hc [H1 H2]. split.
  - setoid_replace (q * c * lo)%Q with (q * lo * c)%Q by ring.
    now apply Qmult_le_compat_r.
  - setoid_replace (q * c * hi)%Q with (q * hi * c)%Q by ring.
    now apply Qmult_le_compat_r.
Qed.

Lemma within_div (q x lo hi q' y lo' hi' : Q) :
  (0 < q)%Q -> (0 < q')%Q -> (0 < lo)%Q -> (0 < lo')%Q ->
  within q x lo hi -> within q' y lo' hi' ->
  within (q / q') (x / y) (lo / hi') (hi / lo').
Proof.
  intros Hq Hq' Hlo Hlo' [H1 H2] [H3 H4].
  assert (Hy : (0 < y)%Q).
  { apply (Qlt_le_trans _ (q' * lo')); [| exact H3].
    apply Qmult_lt_0_compat; assumption. }
  assert (Hhi' : (0 < hi')%Q).
  { destruct (Qlt_le_dec 0 hi') as [H | H]; [exact H |].
    exfalso. assert (q' * hi' <= 0)%Q; [| lra].
    setoid_replace 0%Q with (q' * 0)%Q by ring.
    apply Qmult_le_l; assumption. }
  assert (Hx : (0 < x)%Q).
  { apply (Qlt_le_trans _ (q * lo)); [| exact H1].
    apply Qmult_lt_0_compat; assumption. }
  split.
  - apply Qle_shift_div_l; [exact Hy |].
    apply (Qle_trans _ (q / q' * (lo / hi') * (q' * hi'))).
    + apply Qmult_le_l; [| exact H4].
      apply Qmult_lt_0_compat; apply Qlt_shift_div_l; lra.
    + setoid_replace (q / q' * (lo / hi') * (q' * hi'))%Q with (q * lo)%Q
        by (field; split; lra).
      exact H1.
  - apply Qle_shift_div_r; [exact Hy |].
    apply (Qle_trans _ (q / q' * (hi / lo') * (q' * lo'))).
    + setoid_replace (q / q' * (hi / lo') * (q' * lo'))%Q with (q * hi)%Q
        by (field; split; lra).
      exact H2.
    + assert (Hhi : (0 <= hi)%Q).
      { destruct (Qlt_le_dec hi 0) as [H | H]; [| exact H].
        exfalso. assert (q * hi < 0)%Q; [| lra].
        setoid_replace 0%Q with (q * 0)%Q by ring.
        apply Qmult_lt_l; assumption. }
      rewrite (Qmult_comm _ y), (Qmult_comm _ (q' * lo')).
      apply Qmult_le_compat_r; [exact H3 |].
      apply Qmult_le_0_compat.
      * apply Qle_shift_div_l; lra.
      * apply Qle_shift_div_l; lra.
Qed.

Lemma within_weaken (q x lo hi lo' hi' : Q) :
  (0 <= q)%Q -> (lo' <= lo)%Q -> (hi <= hi')%Q ->
  within q x lo hi -> within q x lo' hi'.
Proof.
  intros Hq Hlo Hhi [H1 H2]. split.
  - apply (Qle_trans _ (q * lo)); [| exact H1].
    rewrite (Qmult_comm q lo'), (Qmult_comm q lo).
    now apply Qmult_le_compat_r.
  - apply (Qle_trans _ (q * hi)); [exact H2 |].
    rewrite (Qmult_comm q hi'), (Qmult_comm q hi).
    now apply Qmult_le_compat_r.
Qed.

Lemma product_lower (a b q lo : Q) :
  (0 <= a)%Q -> (0 <= b)%Q -> (a <= q)%Q -> (b <= lo)%Q -> (a * b <= q * lo)%Q.
Proof.
  intros Ha Hb Hq Hlo.
  apply (Qle_trans _ (q * b)).
  - now apply Qmult_le_compat_r.
  - rewrite (Qmult_comm q b), (Qmult_comm q lo).
    apply Qmult_le_compat_r; [exact Hlo | lra].
Qed.

Lemma scaled_within (n t : Z) :
  0 < n <= t -> t < 2 ^ 63 ->
  within (inject_Z n / inject_Z t * 100 * 100)
         (fmul (fmul (fdiv (binary64 (inject_Z n)) (binary64 (inject_Z t))) 100) 100)
         lo4 hi4.
Proof.
  intros Hn Ht.
  assert (Hqn : (1 <= inject_Z n)%Q) by (unfold Qle; simpl; lia).
  assert (Hqt : (1 <= inject_Z t)%Q) by (unfold Qle; simpl; lia).
  assert (Hqt' : (inject_Z t <= inject_Z (2 ^ 63))%Q) by (rewrite <- Zle_Qle; lia).
  assert (Hr : (1 # 9223372036854775808 <= inject_Z n / inject_Z t)%Q).
  { apply Qle_shift_div_l; [lra |].
    apply (Qle_trans _ 1); [| exact Hqn].
    apply (Qle_trans _ ((1 # 9223372036854775808) * inject_Z (2 ^ 63)));
      [| apply Qle_bool_iff; vm_compute; reflexivity].
    rewrite (Qmult_comm _ (inject_Z t)), (Qmult_comm _ (inject_Z (2 ^ 63))).
    apply Qmult_le_compat_r; [exact Hqt' | discriminate]. }
  assert (Ha : within (inject_Z n) (binary64 (inject_Z n)) lo1 hi1).
  { apply binary64_within.
    - apply (Qle_trans _ (1 * 1)); [discriminate |].
      apply product_lower; [discriminate | discriminate | exact Hqn | apply Qle_refl].
    - unfold within. split; ring_simplify; apply Qle_refl. }
  assert (Hb : within (inject_Z t) (binary64 (inject_Z t)) lo1 hi1).
  { apply binary64_within.
    - apply (Qle_trans _ (1 * 1)); [discriminate |].
      apply product_lower; [discriminate | discriminate | exact Hqt | apply Qle_refl].
    - unfold within. split; ring_simplify; apply Qle_refl. }
  assert (Hc : within (inject_Z n / inject_Z t)
                      (binary64 (inject_Z n) / binary64 (inject_Z t))
                      (lo1 / hi1) (hi1 / lo1)).
  { apply within_div; try assumption; try reflexivity; lra. }
  set (r := (inject_Z n / inject_Z t)%Q) in *.
  apply (binary64_within r) in Hc.
  2:{ apply (Qle_trans _ ((1 # 9223372036854775808) * (1 # 2))); [discriminate |].
      apply product_lower; [discriminate | discriminate | exact Hr |].
      apply Qle_bool_iff. vm_compute. reflexivity. }
  apply (within_scale _ _ _ _ 100) in Hc; [| discriminate].
  apply binary64_within in Hc.
  2:{ apply (Qle_trans _ ((1 # 9223372036854775808) * (1 # 2))); [discriminate |].
      apply product_lower; [discriminate | discriminate | lra |].
      apply Qle_bool_iff. vm_compute. reflexivity. }
  apply (within_scale _ _ _ _ 100) in Hc; [| discriminate].
  apply binary64_within in Hc.
  2:{ apply (Qle_trans _ ((1 # 9223372036854775808) * (1 # 2))); [discriminate |].
      apply product_lower; [discriminate | discriminate | lra |].
      apply Qle_bool_iff. vm_compute. reflexivity. }
  exact Hc.
Qed.

Lemma binary64_zero (q : Q) : Qnum q = 0 -> binary64 q = 0%Q.
Proof. intros H. unfold binary64. now rewrite H. Qed.

Lemma bounds4 : (1 - (1 # 1000000000000000) <= lo4)%Q /\ (hi4 <= 1 + (1 # 1000000000000000))%Q.
Proof. split; apply Qle_bool_iff; vm_compute; reflexivity. Qed.

Lemma inject_Z_bounds (k a b : Z) (c d : positive) :
  (inject_Z a - (Z.pos c # d) <= inject_Z k)%Q ->
  (inject_Z k <= inject_Z b + (Z.pos c # d))%Q ->
  Z.pos c < Z.pos d -> a <= k <= b.
Proof.
  unfold Qle, Qminus, Qplus, Qopp, inject_Z. cbn [Qnum Qden].
  intros H1 H2 H3. nia.
Qed.

(** The integer that [round2] divides by 100 is within a half, and the
    rounding of four operations, of the exact [n / t * 10000]. *)
Lemma percent_spec (n t : Z) :
  0 <= n <= t -> 0 < t < 2 ^ 63 ->
  exists k : Z,
    percent n t = binary64 (inject_Z k / 100)
    /\ (Qabs (inject_Z k - inject_Z n / inject_Z t * 10000)
        <= (1 # 2) + (1 # 1000000000))%Q
    /\ 0 <= k <= 10000
    /\ (Qabs (percent n t - inject_Z k / 100) <= 1 # 10000000000000)%Q.
Proof.
  intros Hn Ht.
  set (m := fmul (fmul (fdiv (binary64 (inject_Z n)) (binary64 (inject_Z t))) 100) 100).
  exists (round_half_even m).
  assert (Hclose : (Qabs (inject_Z (round_half_even m)
                          - inject_Z n / inject_Z t * 10000)
                    <= (1 # 2) + (1 # 1000000000))%Q).
  { destruct (Z.eq_dec n 0) as [-> | Hn0].
    - assert (E : m = 0%Q).
      { unfold m, fmul, fdiv.
        repeat (rewrite binary64_zero; [| reflexivity]). reflexivity. }
      rewrite E.
      assert (E2 : (inject_Z (round_half_even 0) - inject_Z 0 / inject_Z t * 10000 == 0)%Q).
      { unfold Qeq. simpl. reflexivity. }
      rewrite E2. discriminate.
    - pose proof (scaled_within n t ltac:(lia) ltac:(lia)) as Hm. fold m in Hm.
      set (q := (inject_Z n / inject_Z t * 100 * 100)%Q) in *.
      assert (Hqt : (0 < inject_Z t)%Q) by (unfold Qlt; simpl; lia).
      assert (Hq : (0 <= q)%Q /\ (q <= 10000)%Q).
      { assert (H0 : (0 <= inject_Z n / inject_Z t)%Q).
        { apply Qle_shift_div_l; [exact Hqt |].
          unfold Qle; simpl; lia. }
        assert (H1 : (inject_Z n / inject_Z t <= 1)%Q).
        { apply Qle_shift_div_r; [exact Hqt |].
          rewrite Qmult_1_l, <- Zle_Qle. lia. }
        unfold q. generalize dependent (inject_Z n / inject_Z t)%Q.
        intros r _ _ Hr0 Hr1. split; lra. }
      destruct bounds4 as [Hlo Hhi].
      apply (within_weaken _ _ _ _ _ _ (proj1 Hq) Hlo Hhi) in Hm.
      destruct Hm as [Hm1 Hm2].
      pose proof (round_half_even_error m) as He.
      apply Qabs_Qle_condition in He. destruct He as [He1 He2].
      setoid_replace (inject_Z n / inject_Z t * 10000)%Q with q
        by (unfold q; ring).
      destruct Hq as [Hq0 Hq1].
      apply Qabs_Qle_condition. split; lra. }
  assert (Hk : 0 <= round_half_even m <= 10000).
  { assert (Hqt : (0 < inject_Z t)%Q) by (unfold Qlt; simpl; lia).
    assert (H0 : (0 <= inject_Z n / inject_Z t)%Q).
    { apply Qle_shift_div_l; [exact Hqt |]. unfold Qle; simpl; lia. }
    assert (H1 : (inject_Z n / inject_Z t <= 1)%Q).
    { apply Qle_shift_div_r; [exact Hqt |]. rewrite Qmult_1_l, <- Zle_Qle. lia. }
    apply Qabs_Qle_condition in Hclose. destruct Hclose as [Hc1 Hc2].
    apply (inject_Z_bounds _ 0 10000 6 10).
    - change (inject_Z 0) with 0%Q. lra.
    - change (inject_Z 10000) with (10000 # 1)%Q. lra.
    - lia. }
  split; [reflexivity |]. split; [exact Hclose |]. split; [exact Hk |].
  change (percent n t) with (binary64 (inject_Z (round_half_even m) / 100)).
  set (k := round_half_even m) in *.
  destruct (Z.eq_dec k 0) as [E | Hk0].
  - rewrite E. vm_compute. discriminate.
  - assert (Hlow : (1 # 100 <= inject_Z k / 100)%Q).
    { unfold Qle, Qdiv, Qmult, Qinv, inject_Z. simpl. lia. }
    assert (Hhigh : (inject_Z k / 100 <= 100)%Q).
    { unfold Qle, Qdiv, Qmult, Qinv, inject_Z. simpl. lia. }
    assert (Habs : (Qabs (inject_Z k / 100) == inject_Z k / 100)%Q)
      by (apply Qabs_pos; lra).
    pose proof (binary64_error (inject_Z k / 100)) as He.
    rewrite Habs in He.
    specialize (He ltac:(lra) ltac:(pose proof tiny_bound; lra)).
    apply (Qle_trans _ _ _ He).
    unfold eps. lra.
Qed.

(** No user in a bucket gives the percentage 0. *)
Lemma percent_zero (t : Z) : percent 0 t = 0%Q.
Proof.
  unfold percent, round2, fmul, fdiv, rint.
  repeat (rewrite binary64_zero; [| reflexivity]). reflexivity.
Qed.

(** *** Counting *)

Lemma count_where_cons (p : nat * row -> bool) (x : nat * row) (f : frame) :
  count_where p (x :: f) = (if p x then 1 else 0) + count_where p f.
Proof.
  unfold count_where. simpl filter. destruct (p x); simpl List.length; lia.
Qed.

Lemma count_buckets (f : frame) :
  count_where (in_bucket Dentro) f + count_where (in_bucket Fora) f
  = Z.of_nat (List.length f).
Proof.
  induction f as [| x f IH]; [reflexivity |].
  rewrite !count_where_cons. unfold in_bucket at 1 3.
  destruct (horario_comercial (snd x)); cbn [bucket_eqb];
    simpl List.length; lia.
Qed.

Lemma count_absent (b : bucket) (f : frame) :
  (forall x, In x f -> horario_comercial (snd x) <> b) ->
  count_where (in_bucket b) f = 0.
Proof.
  intros H. unfold count_where. rewrite SortFacts.filter_none; [reflexivity |].
  intros x Hx. specialize (H x Hx). unfold in_bucket.
  destruct (horario_comercial (snd x)), b; try reflexivity; now destruct H.
Qed.

Section WithRuntime.

Variable rt : runtime.

(** C7.  For a first-contact table with at least one row (and fewer
    than [2^63], so that the counts are [int64] values), [summarize]
    returns; [total] is the number of rows; [resumo] has the row of
    Dentro and then the row of Fora, each with the number of rows in
    that bucket (0, with the percentage 0, when the bucket does not
    occur); the two counts add up to [total].  Each percentage is the
    float nearest to a number of two decimals [k / 100], where the
    integer [k] is [count / total * 10000] rounded: it is within a
    half of it, up to the [10^-9] that covers the four float
    operations before the rounding.  The two integers add up to 9999,
    10000 or 10001, and the two percentages to 100 within 0.01, up to
    the [10^-12] that covers the last division. *)
Theorem summarize_resumo (cols : list string) (f : frame) :
  f <> [] ->
  Z.of_nat (List.length f) < 2 ^ 63 ->
  exists s n_in n_out p_in p_out k_in k_out,
    summarize rt (Normalized cols f) = Ok s
    /\ total s = Z.of_nat (List.length f)
    /\ resumo s
       = [{| horario := Dentro; usuarios_unicos := n_in; percentual := p_in |};
          {| horario := Fora; usuarios_unicos := n_out; percentual := p_out |}]
    /\ n_in = count_where (in_bucket Dentro) f
    /\ n_out = count_where (in_bucket Fora) f
    /\ ((forall x, In x f -> horario_comercial (snd x) <> Dentro) ->
        n_in = 0 /\ p_in = 0%Q)
    /\ ((forall x, In x f -> horario_comercial (snd x) <> Fora) ->
        n_out = 0 /\ p_out = 0%Q)
    /\ n_in + n_out = total s
    /\ p_in = binary64 (inject_Z k_in / 100)
    /\ p_out = binary64 (inject_Z k_out / 100)
    /\ (Qabs (inject_Z k_in - inject_Z n_in / inject_Z (total s) * 10000)
        <= (1 # 2) + (1 # 1000000000))%Q
    /\ (Qabs (inject_Z k_out - inject_Z n_out / inject_Z (total s) * 10000)
        <= (1 # 2) + (1 # 1000000000))%Q
    /\ 9999 <= k_in + k_out <= 10001
    /\ (Qabs (p_in - inject_Z k_in / 100) <= 1 # 10000000000000)%Q
    /\ (Qabs (p_out - inject_Z k_out / 100) <= 1 # 10000000000000)%Q
    /\ (Qabs (p_in + p_out - 100) <= (1 # 100) + (1 # 1000000000000))%Q.
Proof.
  intros Hne Hlen.
  assert (Hempty : Frame.empty (Normalized cols f) = false)
    by (destruct f; [contradiction | reflexivity]).
  assert (Hpos : 0 < Z.of_nat (List.length f))
    by (destruct f; [contradiction | simpl; lia]).
  pose proof (count_buckets f) as Hsum.
  assert (Hin0 : 0 <= count_where (in_bucket Dentro) f)
    by (unfold count_where; lia).
  assert (Hout0 : 0 <= count_where (in_bucket Fora) f)
    by (unfold count_where; lia).
  set (n_in := count_where (in_bucket Dentro) f) in *.
  set (n_out := count_where (in_bucket Fora) f) in *.
  set (t := Z.of_nat (List.length f)) in *.
  destruct (percent_spec n_in t ltac:(lia) ltac:(lia))
    as (k_in & Ep_in & Hk_in & Rk_in & Hp_in).
  destruct (percent_spec n_out t ltac:(lia) ltac:(lia))
    as (k_out & Ep_out & Hk_out & Rk_out & Hp_out).
  assert (Hexact : (inject_Z n_in / inject_Z t * 10000
                    + inject_Z n_out / inject_Z t * 10000 == 10000)%Q).
  { rewrite <- Hsum, inject_Z_plus. field.
    rewrite <- inject_Z_plus, Hsum. intros H.
    unfold Qeq in H. simpl in H. lia. }
  assert (Hks : 9999 <= k_in + k_out <= 10001).
  { pose proof Hk_in as H1. pose proof Hk_out as H2.
    apply Qabs_Qle_condition in H1, H2.
    destruct H1 as [H1 H1'], H2 as [H2 H2'].
    apply (inject_Z_bounds _ 9999 10001 1 1000).
    - rewrite inject_Z_plus. change (inject_Z 9999) with (9999 # 1)%Q. lra.
    - rewrite inject_Z_plus. change (inject_Z 10001) with (10001 # 1)%Q. lra.
    - lia. }
  exists {| total := t; resumo := resumo_of f t; semana := semana_of rt f;
            dia := dia_of rt cols f; hora_table := hora_of f |},
         n_in, n_out, (percent n_in t), (percent n_out t), k_in, k_out.
  split.
  { unfold summarize. rewrite Hempty. reflexivity. }
  split; [reflexivity |]. split; [reflexivity |].
  split; [reflexivity |]. split; [reflexivity |].
  split.
  { intros H. apply count_absent in H. fold n_in in H. rewrite H.
    split; [reflexivity | apply percent_zero]. }
  split.
  { intros H. apply count_absent in H. fold n_out in H. rewrite H.
    split; [reflexivity | apply percent_zero]. }
  split; [exact Hsum |]. split; [exact Ep_in |]. split; [exact Ep_out |].
  split; [exact Hk_in |]. split; [exact Hk_out |]. split; [exact Hks |].
  split; [exact Hp_in |]. split; [exact Hp_out |].
  cbn [total].
  assert (Hw : (9999 # 100 <= inject_Z k_in / 100 + inject_Z k_out / 100)%Q
               /\ (inject_Z k_in / 100 + inject_Z k_out / 100 <= 10001 # 100)%Q).
  { unfold Qle, Qplus, Qdiv, Qmult, Qinv, inject_Z. cbn [Qnum Qden]. lia. }
  destruct Hw as [Hw1 Hw2].
  apply Qabs_Qle_condition in Hp_in, Hp_out.
  destruct Hp_in as [Hi1 Hi2], Hp_out as [Ho1 Ho2].
  apply Qabs_Qle_condition.
  set (wi := (inject_Z k_in / 100)%Q) in *.
  set (wo := (inject_Z k_out / 100)%Q) in *.
  clearbody wi wo. clear Hexact Hk_in Hk_out Ep_in Ep_out.
  split; lra.
Qed.

(** C9.  On the empty event list [preprocess_and_unique] returns, for
    both tables, the frame built from no record: it has no row (and no
    column).  On that frame, as on any empty frame, [summarize] returns
    the total 0 with an empty [resumo] and three empty tables; nothing
    is divided, nothing is raised. *)
Theorem empty_input (tz_name : string) (start_h end_h : Z) :
  preprocess_and_unique rt [] tz_name start_h end_h
  = Ok (NoColumns 0, NoColumns 0)
  /\ Frame.empty (NoColumns 0) = true
  /\ len (NoColumns 0) = 0
  /\ summarize rt (NoColumns 0)
     = Ok {| total := 0; resumo := []; semana := empty_pivot;
             dia := empty_pivot; hora_table := empty_pivot |}
  /\ (forall records,
        records_empty records = true ->
        preprocess_and_unique rt records tz_name start_h end_h
        = Ok (NoColumns (List.length records), NoColumns (List.length records)))
  /\ (forall df, Frame.empty df = true -> summarize rt df = Ok empty_summary).
Proof.
  repeat split.
  - intros records H. unfold preprocess_and_unique. now rewrite H.
  - intros df H. unfold summarize. now rewrite H.
Qed.

End WithRuntime.

Lemma summarize_resumo_witness :
  exists s n_in n_out p_in p_out,
    summarize Reference.stable (Normalized [] tied_users_first) = Ok s
    /\ total s = 2
    /\ resumo s
       = [{| horario := Dentro; usuarios_unicos := n_in; percentual := p_in |};
          {| horario := Fora; usuarios_unicos := n_out; percentual := p_out |}]
    /\ n_in + n_out = total s
    /\ (Qabs (p_in + p_out - 100) <= (1 # 100) + (1 # 1000000000000))%Q.
Proof.
  destruct (summarize_resumo Reference.stable [] tied_users_first
              ltac:(vm_compute; discriminate) ltac:(vm_compute; reflexivity))
    as (s & n_in & n_out & p_in & p_out & k_in & k_out
        & H1 & H2 & H3 & _ & _ & _ & _ & H8 & _ & _ & _ & _ & _ & _ & _ & H16).
  exists s, n_in, n_out, p_in, p_out.
  split; [exact H1 |]. split; [exact H2 |]. split; [exact H3 |].
  split; [exact H8 | exact H16].
Defined.

(** A table in which one bucket does not occur, and percentages that
    must be rounded: 1 of 3 users inside business hours gives the
    floats nearest to 33.33 and to 66.67. *)
Example summarize_thirds :
  resumo_cells (summarize Reference.stable
                  (Normalized [] (table_of [Dentro; Fora; Fora])))
  = [(Dentro, 1, Qred (binary64 (3333 # 100)));
     (Fora, 2, Qred (binary64 (6667 # 100)))].
Proof. vm_compute. reflexivity. Qed.

(** Percentages that do not add up to 100: of 160 users, 23 inside
    business hours are 14.375 per cent, and the product the float
    operations leave is just below it. *)
Example summarize_23_of_160 :
  resumo_cells (summarize Reference.stable
                  (Normalized [] (table_of (repeat Dentro 23 ++ repeat Fora 137))))
  = [(Dentro, 23, Qred (binary64 (1437 # 100)));
     (Fora, 137, Qred (binary64 (8562 # 100)))].
Proof. vm_compute. reflexivity. Qed.

End SummaryFacts.
